(** * Mentor-assistant backend: the summary route and its JSON extraction

    A shallow embedding of [backend/src/index.ts] (the scores variant of the
    handler) and [backend/api/index.ts] (the patterns variant), and the
    properties of the structured-extraction pipeline.

    JavaScript strings are sequences of UTF-16 code units; they are modelled
    as lists of code units, so that [indexOf], [lastIndexOf] and [substring]
    count exactly what the source counts. *)

From Stdlib Require Import String Ascii.
From Stdlib Require Import List ZArith NArith Lia Bool.
Import ListNotations.

#[local] Set Warnings "-register-all".

Local Open Scope Z_scope.

(** ** JavaScript strings *)

Definition CodeUnit := N.
Definition JSString := list CodeUnit.

(** A literal of the source whose characters are all ASCII. *)
Definition js (s : string) : JSString := map N_of_ascii (list_ascii_of_string s).
Arguments js s%_string.

(** The same, for a literal that holds double quotes: a tilde in [s] stands
    for the double quote (code unit 34); the source has no tilde. *)
Definition jsq (s : string) : JSString :=
  map (fun c => if (c =? 126)%N then 34%N else c) (js s).
Arguments jsq s%_string.

Definition LBRACE : CodeUnit := 123%N.
Definition RBRACE : CodeUnit := 125%N.

Fixpoint str_eqb (a b : JSString) : bool :=
  match a, b with
  | [], [] => true
  | c :: a', d :: b' => (c =? d)%N && str_eqb a' b'
  | _, _ => false
  end.

(** [String.prototype.startsWith(searchString)]. *)
Fixpoint startsWith (s searchString : JSString) {struct searchString} : bool :=
  match searchString with
  | [] => true
  | c :: p =>
      match s with
      | [] => false
      | d :: s' => (c =? d)%N && startsWith s' p
      end
  end.

(** [String.prototype.indexOf(searchString)]: the index of the first
    occurrence, -1 when there is none. [k] is the index of the head of [s]. *)
Fixpoint indexOfFrom (s searchString : JSString) (k : Z) : Z :=
  if startsWith s searchString then k
  else match s with
       | [] => -1
       | _ :: s' => indexOfFrom s' searchString (k + 1)
       end.

Definition indexOf (s searchString : JSString) : Z := indexOfFrom s searchString 0.

(** [String.prototype.lastIndexOf(searchString)]: the index of the last
    occurrence, -1 when there is none. *)
Fixpoint lastIndexOfFrom (s searchString : JSString) (k best : Z) : Z :=
  let best' := if startsWith s searchString then k else best in
  match s with
  | [] => best'
  | _ :: s' => lastIndexOfFrom s' searchString (k + 1) best'
  end.

Definition lastIndexOf (s searchString : JSString) : Z :=
  lastIndexOfFrom s searchString 0 (-1).

(** [String.prototype.substring(indexStart, indexEnd)]: both indices are
    clamped to [0, length], and swapped when the first exceeds the second. *)
Definition substring (s : JSString) (indexStart indexEnd : Z) : JSString :=
  let len := Z.of_nat (length s) in
  let a := Z.min (Z.max indexStart 0) len in
  let b := Z.min (Z.max indexEnd 0) len in
  let from := Z.min a b in
  let to := Z.max a b in
  firstn (Z.to_nat (to - from)) (skipn (Z.to_nat from) s).

(** [String.prototype.split(separator)] for a non-empty separator: [cur] is
    the piece being read (reversed), [skip] the number of code units of a
    separator just matched that are still to be passed over. *)
Fixpoint splitFrom (s separator : JSString) (cur : JSString) (skip : nat) : list JSString :=
  match s with
  | [] => [rev cur]
  | c :: s' =>
      match skip with
      | S n => splitFrom s' separator cur n
      | O =>
          if startsWith s separator
          then rev cur :: splitFrom s' separator [] (pred (length separator))
          else splitFrom s' separator (c :: cur) O
      end
  end.

Definition split (s separator : JSString) : list JSString := splitFrom s separator [] O.

(** [Array.prototype.join(separator)] on an array of strings. *)
Fixpoint join (parts : list JSString) (separator : JSString) : JSString :=
  match parts with
  | [] => []
  | [p] => p
  | p :: rest => p ++ separator ++ join rest separator
  end.

(** [s] holds the code unit [c]. *)
Definition includes (s : JSString) (c : CodeUnit) : bool := existsb (N.eqb c) s.

(** ** JSON values

    The value [JSON.parse] produces, which the handler logs and hands to
    [res.json]. An object is the list of its properties in the order
    JavaScript enumerates them: the names that are array indices first, in
    ascending order, then the other names in the order the parser met them;
    a name met again replaces the earlier value in place. A number is an
    IEEE double: [JNumber m e] is the double worth exactly [m * 10 ^ e]
    (every finite double is such a decimal; [m] does not end in zero),
    [JNegZero] is the negative zero and [JInfinity] the infinity a literal
    beyond the range of doubles is read as. *)

Inductive JSON : Type :=
| JNull
| JBool (b : bool)
| JNumber (mantissa exponent : Z)
| JString (s : JSString)
| JArray (elements : list JSON)
| JObject (properties : list (JSString * JSON))
| JNegZero
| JInfinity (negative : bool).

(** What a client reads from the text [JSON.stringify] writes for a value:
    an infinity is written as null and the negative zero as 0; every other
    value is written so that it reads back as itself. *)
Fixpoint wire (v : JSON) : JSON :=
  match v with
  | JNegZero => JNumber 0 0
  | JInfinity _ => JNull
  | JArray l => JArray (map wire l)
  | JObject l => JObject (map (fun p => (fst p, wire (snd p))) l)
  | _ => v
  end.

(** The value holds no infinity and no negative zero. *)
Fixpoint plain (v : JSON) : bool :=
  match v with
  | JNegZero => false
  | JInfinity _ => false
  | JArray l => forallb plain l
  | JObject l => forallb (fun p => plain (snd p)) l
  | _ => true
  end.

Inductive ParseResult : Type :=
| Parsed (value : JSON)
| SyntaxErrorAt (message : JSString).

Module JSONText.

Definition isWhitespace (c : CodeUnit) : bool :=
  ((c =? 9) || (c =? 10) || (c =? 13) || (c =? 32))%N.

Fixpoint skipWs (s : JSString) : JSString :=
  match s with
  | c :: r => if isWhitespace c then skipWs r else s
  | [] => []
  end.

Definition isDigit (c : CodeUnit) : bool := ((48 <=? c) && (c <=? 57))%N.

Definition hexValue (c : CodeUnit) : option N :=
  if ((48 <=? c) && (c <=? 57))%N then Some (c - 48)%N
  else if ((97 <=? c) && (c <=? 102))%N then Some (c - 87)%N
  else if ((65 <=? c) && (c <=? 70))%N then Some (c - 55)%N
  else None.

Definition hex4 (a b c d : CodeUnit) : option CodeUnit :=
  match hexValue a, hexValue b, hexValue c, hexValue d with
  | Some x, Some y, Some z, Some w => Some (((x * 16 + y) * 16 + z) * 16 + w)%N
  | _, _, _, _ => None
  end.

(** The code unit an escape letter stands for. *)
Definition escapeOf (e : CodeUnit) : option CodeUnit :=
  if (e =? 34)%N then Some 34%N            (* quote *)
  else if (e =? 92)%N then Some 92%N       (* backslash *)
  else if (e =? 47)%N then Some 47%N       (* slash *)
  else if (e =? 98)%N then Some 8%N        (* b *)
  else if (e =? 102)%N then Some 12%N      (* f *)
  else if (e =? 110)%N then Some 10%N      (* n *)
  else if (e =? 114)%N then Some 13%N      (* r *)
  else if (e =? 116)%N then Some 9%N       (* t *)
  else None.

(** The characters of a string literal after its opening quote, up to and
    including the closing one: the string read and the text left. *)
Fixpoint parseChars (s : JSString) : option (JSString * JSString) :=
  match s with
  | [] => None
  | c :: r =>
      if (c =? 34)%N then Some ([], r)
      else if (c =? 92)%N then
        match r with
        | [] => None
        | e :: r1 =>
            if (e =? 117)%N then
              match r1 with
              | h1 :: h2 :: h3 :: h4 :: r2 =>
                  match hex4 h1 h2 h3 h4, parseChars r2 with
                  | Some u, Some (str, rest) => Some (u :: str, rest)
                  | _, _ => None
                  end
              | _ => None
              end
            else
              match escapeOf e, parseChars r1 with
              | Some u, Some (str, rest) => Some (u :: str, rest)
              | _, _ => None
              end
        end
      else if (c <? 32)%N then None
      else
        match parseChars r with
        | Some (str, rest) => Some (c :: str, rest)
        | None => None
        end
  end.

Fixpoint spanDigits (s : JSString) : list CodeUnit * JSString :=
  match s with
  | c :: r =>
      if isDigit c then let (ds, rest) := spanDigits r in (c :: ds, rest)
      else ([], s)
  | [] => ([], [])
  end.

Definition digitsValue (ds : list CodeUnit) : Z :=
  fold_left (fun acc d => acc * 10 + (Z.of_N d - 48)) ds 0.

(** Drop the zeros a mantissa ends in, at most [fuel] of them. *)
Fixpoint normalise (fuel : nat) (m e : Z) : Z * Z :=
  match fuel with
  | O => (m, e)
  | S n =>
      if m =? 0 then (0, 0)
      else if m mod 10 =? 0 then normalise n (m / 10) (e + 1)
      else (m, e)
  end.

(** The double nearest to the quotient [n / d] of two positive integers,
    ties to even, as its significand and binary exponent: [s * 2 ^ q] with
    [s] below [2 ^ 53], and [q] at least -1074, where the doubles end. *)
Definition roundToDouble (n d : Z) : Z * Z :=
  let b0 := Z.log2 n - Z.log2 d in
  let b := if n * 2 ^ Z.max 0 (- b0) <? d * 2 ^ Z.max 0 b0 then b0 - 1 else b0 in
  let q := Z.max (b - 52) (-1074) in
  let num := n * 2 ^ Z.max 0 (- q) in
  let den := d * 2 ^ Z.max 0 q in
  let s0 := num / den in
  let r := num mod den in
  let s := if (den <? 2 * r) || ((den =? 2 * r) && Z.odd s0) then s0 + 1 else s0 in
  if s =? 2 ^ 53 then (2 ^ 52, q + 1) else (s, q).

(** The Number a literal denotes: the double nearest to the decimal
    [digits * 10 ^ (exp - length fs)]. A literal above the largest double
    is read as an infinity, one below the smallest as a zero. The two tests
    on the exponent only spare the computation of a huge power of ten. *)
Definition mkNumber (neg : bool) (ds fs : list CodeUnit) (exp : Z) : JSON :=
  let m := digitsValue (ds ++ fs) in
  let e := exp - Z.of_nat (length fs) in
  let zero := if neg then JNegZero else JNumber 0 0 in
  if m =? 0 then zero
  else if 400 <? e then JInfinity neg
  else if e + Z.of_nat (length (ds ++ fs)) <? -400 then zero
  else
    let (s, q) :=
      if 0 <=? e then roundToDouble (m * 10 ^ e) 1 else roundToDouble m (10 ^ (- e)) in
    if s =? 0 then zero
    else if 972 <=? q then JInfinity neg
    else
      let mant := if 0 <=? q then s * 2 ^ q else s * 5 ^ (- q) in
      let (m', e') :=
        normalise (S (Z.to_nat (Z.log2 mant))) mant (if 0 <=? q then 0 else q) in
      JNumber (if neg then - m' else m') e'.

(** A number literal: an optional minus, an integer part without leading
    zero, an optional fraction, an optional exponent. *)
Definition parseNumber (s : JSString) : option (JSON * JSString) :=
  let (neg, s1) :=
    match s with
    | c :: r => if (c =? 45)%N then (true, r) else (false, s)
    | [] => (false, s)
    end in
  let (ds, s2) := spanDigits s1 in
  match ds with
  | [] => None
  | d :: more =>
      if (d =? 48)%N && negb (match more with [] => true | _ => false end) then None
      else
        let fraction :=
          match s2 with
          | c :: r =>
              if (c =? 46)%N then
                let (fs, s3) := spanDigits r in
                match fs with [] => None | _ => Some (fs, s3) end
              else Some ([], s2)
          | [] => Some ([], s2)
          end in
        match fraction with
        | None => None
        | Some (fs, s3) =>
            match s3 with
            | c :: r =>
                if ((c =? 101) || (c =? 69))%N then
                  let (eneg, r1) :=
                    match r with
                    | g :: r' =>
                        if (g =? 45)%N then (true, r')
                        else if (g =? 43)%N then (false, r')
                        else (false, r)
                    | [] => (false, r)
                    end in
                  let (es, s4) := spanDigits r1 in
                  match es with
                  | [] => None
                  | _ =>
                      let ev := digitsValue es in
                      Some (mkNumber neg ds fs (if eneg then - ev else ev), s4)
                  end
                else Some (mkNumber neg ds fs 0, s3)
            | [] => Some (mkNumber neg ds fs 0, s3)
            end
        end
  end.

(** The array index a property name denotes, if it is one: a decimal
    numeral without leading zero, at most [2 ^ 32 - 2]. *)
Definition arrayIndex (k : JSString) : option Z :=
  match k with
  | [] => None
  | c :: more =>
      if forallb isDigit k
         && negb ((c =? 48)%N && negb (match more with [] => true | _ => false end))
         && (length k <=? 10)%nat
         && (digitsValue k <=? 4294967294)
      then Some (digitsValue k)
      else None
  end.

(** Define the new property [k] whose name is the array index [i]: after
    the indices below [i], before everything else. *)
Fixpoint insertIndex (props : list (JSString * JSON)) (i : Z) (k : JSString) (v : JSON)
  : list (JSString * JSON) :=
  match props with
  | [] => [(k, v)]
  | (k', v') :: rest =>
      match arrayIndex k' with
      | Some j => if j <? i then (k', v') :: insertIndex rest i k v
                  else (k, v) :: props
      | None => (k, v) :: props
      end
  end.

Fixpoint replaceProperty (props : list (JSString * JSON)) (k : JSString) (v : JSON)
  : option (list (JSString * JSON)) :=
  match props with
  | [] => None
  | (k', v') :: rest =>
      if str_eqb k' k then Some ((k', v) :: rest)
      else match replaceProperty rest k v with
           | Some rest' => Some ((k', v') :: rest')
           | None => None
           end
  end.

(** Define (or redefine) the property [k] of an object under construction. *)
Definition setProperty (props : list (JSString * JSON)) (k : JSString) (v : JSON)
  : list (JSString * JSON) :=
  match replaceProperty props k v with
  | Some props' => props'
  | None =>
      match arrayIndex k with
      | Some i => insertIndex props i k v
      | None => props ++ [(k, v)]
      end
  end.

(** Recursive descent over the JSON grammar. Every call consumes at least
    one code unit before it recurses, so a fuel above the length of the
    text is never exhausted. *)
Fixpoint parseValue (fuel : nat) (s : JSString) : option (JSON * JSString) :=
  match fuel with
  | O => None
  | S n =>
      match s with
      | [] => None
      | c :: r =>
          if (c =? 123)%N then
            match skipWs r with
            | d :: r' =>
                if (d =? 125)%N then Some (JObject [], r')
                else parseMembers n (d :: r') []
            | [] => None
            end
          else if (c =? 91)%N then
            match skipWs r with
            | d :: r' =>
                if (d =? 93)%N then Some (JArray [], r')
                else parseElements n (d :: r') []
            | [] => None
            end
          else if (c =? 34)%N then
            match parseChars r with
            | Some (str, rest) => Some (JString str, rest)
            | None => None
            end
          else if startsWith s (js "true") then Some (JBool true, skipn 4 s)
          else if startsWith s (js "false") then Some (JBool false, skipn 5 s)
          else if startsWith s (js "null") then Some (JNull, skipn 4 s)
          else parseNumber s
      end
  end
with parseElements (fuel : nat) (s : JSString) (acc : list JSON)
  : option (JSON * JSString) :=
  match fuel with
  | O => None
  | S n =>
      match parseValue n s with
      | Some (v, rest) =>
          match skipWs rest with
          | d :: r' =>
              if (d =? 44)%N then parseElements n (skipWs r') (v :: acc)
              else if (d =? 93)%N then Some (JArray (rev (v :: acc)), r')
              else None
          | [] => None
          end
      | None => None
      end
  end
with parseMembers (fuel : nat) (s : JSString) (acc : list (JSString * JSON))
  : option (JSON * JSString) :=
  match fuel with
  | O => None
  | S n =>
      match s with
      | q :: r =>
          if (q =? 34)%N then
            match parseChars r with
            | Some (k, rest) =>
                match skipWs rest with
                | colon :: r1 =>
                    if (colon =? 58)%N then
                      match parseValue n (skipWs r1) with
                      | Some (v, rest') =>
                          match skipWs rest' with
                          | d :: r' =>
                              if (d =? 44)%N
                              then parseMembers n (skipWs r') (setProperty acc k v)
                              else if (d =? 125)%N
                              then Some (JObject (setProperty acc k v), r')
                              else None
                          | [] => None
                          end
                      | None => None
                      end
                    else None
                | [] => None
                end
            | None => None
            end
          else None
      | [] => None
      end
  end.

(** [JSON.parse(text)] of ECMAScript, without a reviver. *)
Definition parse (text : JSString) : ParseResult :=
  match parseValue (S (length text)) (skipWs text) with
  | Some (v, rest) =>
      match skipWs rest with
      | [] => Parsed v
      | _ :: _ => SyntaxErrorAt (js "Unexpected non-whitespace character after JSON")
      end
  | None => SyntaxErrorAt (js "Unexpected token or end of JSON input")
  end.

End JSONText.

(** ** Firestore timestamps and their ISO-8601 rendering *)

Record Timestamp : Type := { seconds : Z; nanoseconds : Z }.

Module DateModel.

(** [Timestamp.toDate()] of the admin SDK: the time value in milliseconds,
    the nanoseconds rounded to the nearest millisecond ([Math.round], a
    half goes up). *)
Definition toDate (t : Timestamp) : Z :=
  seconds t * 1000 + (nanoseconds t + 500000) / 1000000.

(** The decimal digits of [n], least significant first, [width] of them. *)
Fixpoint digitsRev (width : nat) (n : Z) : JSString :=
  match width with
  | O => []
  | S w => Z.to_N (48 + n mod 10) :: digitsRev w (n / 10)
  end.

Definition pad (width : nat) (n : Z) : JSString := rev (digitsRev width n).

(** Year, month and day of the day number [days] counted from 1970-01-01
    in the proleptic Gregorian calendar. *)
Definition civilFromDays (days : Z) : Z * Z * Z :=
  let z := days + 719468 in
  let era := z / 146097 in
  let doe := z - era * 146097 in
  let yoe := (doe - doe / 1460 + doe / 36524 - doe / 146096) / 365 in
  let doy := doe - (365 * yoe + yoe / 4 - yoe / 100) in
  let mp := (5 * doy + 2) / 153 in
  let d := doy - (153 * mp + 2) / 5 + 1 in
  let m := if mp <? 10 then mp + 3 else mp - 9 in
  let y := yoe + era * 400 + (if m <=? 2 then 1 else 0) in
  (y, m, d).

(** [Date.prototype.toISOString()] of the time value [ms]. *)
Definition isoOfMillis (ms : Z) : JSString :=
  let days := ms / 86400000 in
  let rem := ms mod 86400000 in
  let '(y, m, d) := civilFromDays days in
  let year :=
    if (0 <=? y) && (y <=? 9999) then pad 4 y
    else (if y <? 0 then js "-" else js "+") ++ pad 6 (Z.abs y) in
  year ++ js "-" ++ pad 2 m ++ js "-" ++ pad 2 d ++ js "T"
    ++ pad 2 (rem / 3600000) ++ js ":" ++ pad 2 (rem / 60000 mod 60) ++ js ":"
    ++ pad 2 (rem / 1000 mod 60) ++ js "." ++ pad 3 (rem mod 1000) ++ js "Z".

Definition toISOString (t : Timestamp) : JSString := isoOfMillis (toDate t).

End DateModel.

(** ** Requests, responses and the collaborators *)

Record DecodedIdToken : Type := { uid : JSString }.

(** The request as the route sees it: the Authorization header as
    [req.header] returns it, the two path parameters, and the user the
    middleware attaches. *)
Record AuthRequest : Type := {
  authorization : option JSString;
  mentorId : JSString;
  tutorId : JSString;
  user : option DecodedIdToken
}.

Record Response : Type := { status : Z; body : JSON }.

(** The data of one incident document: [data.date] may be missing. *)
Record DocumentData : Type := { date : option Timestamp; description : JSString }.

Record QuerySnapshot : Type := { docs : list DocumentData }.

Definition empty (snapshot : QuerySnapshot) : bool :=
  match docs snapshot with [] => true | _ :: _ => false end.

(** The response schema handed to the provider. A field the source leaves
    out ([properties], [required]) is the empty list. *)
Inductive Schema : Type :=
| SchemaString
| SchemaArray (items : Schema)
| SchemaObject (properties : list (JSString * Schema)) (required : list JSString).

Record Part : Type := { partText : JSString }.
Record Content : Type := { role : JSString; parts : list Part }.
Record GenerationConfig : Type := {
  responseMimeType : JSString;
  responseSchema : Schema
}.
Record GenerateContentParameters : Type := {
  model : JSString;
  contents : list Content;
  generationConfig : GenerationConfig
}.
Record GenerateContentResponse : Type := { text : option JSString }.

(** What a [throw] or a rejected promise carries. *)
Inductive Exn : Type :=
| Error (message : JSString)
| SyntaxError (message : JSString)
| Rejection (reason : JSString).

Inductive Outcome (A : Type) : Type :=
| Returned (a : A)
| Thrown (e : Exn).
Arguments Returned {A} a.
Arguments Thrown {A} e.

(** Everything outside the route: the built-in [JSON.parse], the rendering
    [toDate().toISOString()] of a stored timestamp, the identity provider,
    the document store and the AI provider. An awaited call either returns
    or throws. *)
Record Env : Type := {
  JSON_parse : JSString -> ParseResult;
  toISOString : Timestamp -> JSString;
  verifyIdToken : JSString -> Outcome DecodedIdToken;
  incidents_get : JSString -> JSString -> Outcome QuerySnapshot;
  generateContent : GenerateContentParameters -> Outcome GenerateContentResponse
}.

(** ** Effects: the calls and log lines of a run, and exceptions *)

Inductive LogArg : Type :=
| LogText (s : JSString)
| LogExn (e : Exn)
| LogValue (v : JSON).

Inductive Event : Type :=
| VerifyIdTokenCall (idToken : JSString)
| IncidentsGet (mentor tutor : JSString)
| GenerateContentCall (request : GenerateContentParameters)
| ConsoleLog (args : list LogArg)
| ConsoleError (args : list LogArg).

Definition M (A : Type) : Type := list Event * Outcome A.

Definition ret {A} (a : A) : M A := ([], Returned a).

Definition throw {A} (e : Exn) : M A := ([], Thrown e).

Definition bind {A B} (m : M A) (k : A -> M B) : M B :=
  match m with
  | (tr, Returned a) => let (tr', r) := k a in (tr ++ tr', r)
  | (tr, Thrown e) => (tr, Thrown e)
  end.

Definition tryCatch {A} (m : M A) (handler : Exn -> M A) : M A :=
  match m with
  | (tr, Returned a) => (tr, Returned a)
  | (tr, Thrown e) => let (tr', r) := handler e in (tr ++ tr', r)
  end.

Definition emit (ev : Event) : M unit := ([ev], Returned tt).

(** A computation without effects that may throw. *)
Definition lift {A} (o : Outcome A) : M A := ([], o).

(** An awaited call of a collaborator: the call is recorded, its outcome
    is the collaborator's. *)
Definition await {A} (ev : Event) (outcome : Outcome A) : M A := ([ev], outcome).

Declare Scope js_scope.
Delimit Scope js_scope with js.
Notation "x <- m ;; k" := (bind m (fun x => k))
  (at level 61, m at next level, right associativity) : js_scope.
Notation "m ;; k" := (bind m (fun _ => k))
  (at level 61, right associativity) : js_scope.
Local Open Scope js_scope.

Definition trace {A} (m : M A) : list Event := fst m.
Definition outcome {A} (m : M A) : Outcome A := snd m.

Definition isProviderCall (ev : Event) : bool :=
  match ev with GenerateContentCall _ => true | _ => false end.
Definition isStoreCall (ev : Event) : bool :=
  match ev with IncidentsGet _ _ => true | _ => false end.
Definition isVerifierCall (ev : Event) : bool :=
  match ev with VerifyIdTokenCall _ => true | _ => false end.

(** JavaScript falsiness of an optional string: undefined or empty. *)
Definition falsy (s : option JSString) : bool :=
  match s with
  | None => true
  | Some [] => true
  | Some (_ :: _) => false
  end.

(** The string behind a value already tested to be truthy. *)
Definition valueOf (s : option JSString) : JSString :=
  match s with Some t => t | None => [] end.

(** [res.status(code).json(value)]: the body is the text [JSON.stringify]
    writes for [value], kept as the value a client reads from it. *)
Definition json (code : Z) (value : JSON) : Response :=
  {| status := code; body := wire value |}.

(** ** The middleware [verifyToken] (the same in both files) *)

Definition unauthorized : Response :=
  json 401 (JObject [(js "error", JString (js "Unauthorized: No token provided."))]).

Definition invalidToken : Response :=
  json 403 (JObject [(js "error", JString (js "Forbidden: Invalid token."))]).

(** [admin.auth().verifyIdToken(idToken)]; an undefined token is rejected
    before any call. *)
Definition awaitVerifyIdToken (E : Env) (idToken : option JSString) : M DecodedIdToken :=
  match idToken with
  | Some t => await (VerifyIdTokenCall t) (verifyIdToken E t)
  | None => throw (Rejection (js "verifyIdToken: the token must be a string"))
  end.

(** The result is either the response sent, or the request handed to
    [next()] with the decoded token attached. *)
Definition verifyToken (E : Env) (req : AuthRequest) : M (Response + AuthRequest) :=
  let authHeader := authorization req in
  if falsy authHeader || negb (startsWith (valueOf authHeader) (js "Bearer "))
  then ret (inl unauthorized)
  else
    let idToken := nth_error (split (valueOf authHeader) (js "Bearer ")) 1 in
    tryCatch
      (decodedToken <- awaitVerifyIdToken E idToken ;;
       ret (inr {| authorization := authorization req;
                   mentorId := mentorId req;
                   tutorId := tutorId req;
                   user := Some decodedToken |}))
      (fun error =>
         emit (ConsoleError [LogText (js "Error verifying token:"); LogExn error]) ;;
         ret (inl invalidToken)).

(** ** The extraction step (the same in both files)

    From [jsonString.indexOf] to [JSON.parse(extractedJson)]. *)

Definition NoJsonFound : Exn := Error (js "AI response did not contain valid JSON.").
Definition MalformedJson (cause : JSString) : Exn := SyntaxError cause.

Definition extract (E : Env) (jsonString : JSString) : Outcome JSON :=
  let startIndex := indexOf jsonString [LBRACE] in
  let endIndex := lastIndexOf jsonString [RBRACE] in
  if (startIndex =? -1) || (endIndex =? -1) then Thrown NoJsonFound
  else
    let extractedJson := substring jsonString startIndex (endIndex + 1) in
    match JSON_parse E extractedJson with
    | Parsed summaryJson => Returned summaryJson
    | SyntaxErrorAt message => Thrown (MalformedJson message)
    end.

Definition forbidden : Response :=
  json 403 (JObject [(js "error", JString (js "Forbidden: You can only access your own data."))]).

Definition genericFailure : Response :=
  json 500 (JObject [(js "message", JString (js "Something wrong happened"))]).

(** [req.user?.uid !== mentorId]. *)
Definition uidDiffers (u : option DecodedIdToken) (owner : JSString) : bool :=
  match u with
  | Some t => negb (str_eqb (uid t) owner)
  | None => true
  end.

(** One incident as a line of the prompt. *)
Definition incidentText (E : Env) (data : DocumentData) : JSString :=
  let date :=
    match date data with
    | Some t => toISOString E t
    | None => js "unknown date"
    end in
  date ++ js ": " ++ description data.

(** ** The handler of [backend/src/index.ts] (scores) *)

Module Src.

Definition emptyResult : JSON :=
  JObject [(js "summary", JString (js "No incidents to summarize yet."));
           (js "scores", JObject [])].

Definition jsonSchema : Schema :=
  SchemaObject
    [(js "summary", SchemaString); (js "scores", SchemaObject [] [])]
    [js "summary"; js "scores"].

Definition promptHead : JSString := jsq "
You are an educational performance assistant. Your task is to analyze a list of incidents for a tutor and provide a holistic performance summary.
Analyze ALL incidents AS A WHOLE. Do NOT summarize each incident individually.

Respond ONLY with a JSON object.

You MUST provide a detailed performance score for EACH of the 7 criteria.
Use a 1-5 scale:
1 = Poor, 2 = Needs Improvement, 3 = Neutral / Insufficient Information, 4 = Good, 5 = Excellent
**CRITICAL RULE:** If there is NO INFORMATION, score it as 3 (Neutral) and justify with 'Insufficient information.'

Your response MUST match this JSON schema:
{
  ~summary~: ~Your 2-3 sentence summary here.~,
  ~scores~: {
    ~Suggests New Ideas~: { ~score~: 1-5, ~justification~: ~Your justification.~ },
    ~Collaboration~: { ~score~: 1-5, ~justification~: ~Your justification.~ },
    ~Responsiveness~: { ~score~: 1-5, ~justification~: ~Your justification.~ },
    ~Adaptability~: { ~score~: 1-5, ~justification~: ~Your justification.~ },
    ~Feedback~: { ~score~: 1-5, ~justification~: ~Your justification.~ },
    ~Attendance~: { ~score~: 1-5, ~justification~: ~Your justification.~ },
    ~Professionalism~: { ~score~: 1-5, ~justification~: ~Your justification.~ }
  }
}

Here are the incidents:
".

Definition prompt (incidentTexts : list JSString) : JSString :=
  promptHead ++ join incidentTexts [10%N] ++ [10%N].

Definition genAIRequest (incidentTexts : list JSString) : GenerateContentParameters :=
  {| model := js "gemini-2.5-flash";
     contents := [ {| role := js "user"; parts := [ {| partText := prompt incidentTexts |} ] |} ];
     generationConfig :=
       {| responseMimeType := js "application/json"; responseSchema := jsonSchema |} |}.

Definition summaryHandler (E : Env) (req : AuthRequest) : M Response :=
  tryCatch
    (if uidDiffers (user req) (mentorId req) then ret forbidden
     else
       snapshot <- await (IncidentsGet (mentorId req) (tutorId req))
                         (incidents_get E (mentorId req) (tutorId req)) ;;
       if empty snapshot then ret (json 200 emptyResult)
       else
         let incidentTexts := map (incidentText E) (docs snapshot) in
         result <- await (GenerateContentCall (genAIRequest incidentTexts))
                         (generateContent E (genAIRequest incidentTexts)) ;;
         emit (ConsoleLog [LogText (js "finding summary:...")]) ;;
         let jsonString := text result in
         if falsy jsonString then throw (Error (js "No text response from AI."))
         else
           summaryJson <- lift (extract E (valueOf jsonString)) ;;
           emit (ConsoleLog [LogValue summaryJson]) ;;
           ret (json 200 summaryJson))
    (fun error =>
       emit (ConsoleError [LogText (js "Error in /summary route:"); LogExn error]) ;;
       ret genericFailure).

(** [app.get(path, verifyToken, handler)]. *)
Definition route (E : Env) (req : AuthRequest) : M Response :=
  r <- verifyToken E req ;;
  match r with
  | inl sent => ret sent
  | inr req' => summaryHandler E req'
  end.

End Src.

(** ** The handler of [backend/api/index.ts] (patterns and suggestions) *)

Module Api.

Definition emptyResult : JSON :=
  JObject [(js "summary", JString (js "No incidents to summarize yet."));
           (js "patterns", JArray []);
           (js "suggestions", JArray [])].

Definition jsonSchema : Schema :=
  SchemaObject
    [(js "summary", SchemaString);
     (js "patterns", SchemaArray SchemaString);
     (js "suggestions", SchemaArray SchemaString)]
    [js "summary"; js "patterns"; js "suggestions"].

Definition promptHead : JSString := jsq "
You are an educational performance assistant. Your task is to analyze a list of incidents for a tutor and provide a holistic performance summary.
Analyze ALL incidents AS A WHOLE. You MUST NOT summarize each incident individually.
Respond ONLY with a JSON object matching this schema:
{
  ~summary~: ~A 2-3 sentence overall summary of performance.~,
  ~patterns~: [~A list of key behavioral patterns (strengths or weaknesses).~],
  ~suggestions~: [~A list of actionable suggestions for improvement (if any).~]
}
Here are the incidents:
".

Definition prompt (incidentTexts : list JSString) : JSString :=
  promptHead ++ join incidentTexts [10%N] ++ [10%N].

Definition genAIRequest (incidentTexts : list JSString) : GenerateContentParameters :=
  {| model := js "gemini-2.5-flash";
     contents := [ {| role := js "user"; parts := [ {| partText := prompt incidentTexts |} ] |} ];
     generationConfig :=
       {| responseMimeType := js "application/json"; responseSchema := jsonSchema |} |}.

Definition summaryHandler (E : Env) (req : AuthRequest) : M Response :=
  tryCatch
    (if uidDiffers (user req) (mentorId req) then ret forbidden
     else
       snapshot <- await (IncidentsGet (mentorId req) (tutorId req))
                         (incidents_get E (mentorId req) (tutorId req)) ;;
       if empty snapshot then ret (json 200 emptyResult)
       else
         let incidentTexts := map (incidentText E) (docs snapshot) in
         result <- await (GenerateContentCall (genAIRequest incidentTexts))
                         (generateContent E (genAIRequest incidentTexts)) ;;
         emit (ConsoleLog [LogText (js "finding summary:...")]) ;;
         let jsonString := text result in
         if falsy jsonString then throw (Error (js "No text response from AI."))
         else
           summaryJson <- lift (extract E (valueOf jsonString)) ;;
           emit (ConsoleLog [LogValue summaryJson]) ;;
           ret (json 200 summaryJson))
    (fun error =>
       emit (ConsoleError [LogText (js "Error in /summary route:"); LogExn error]) ;;
       ret genericFailure).

Definition route (E : Env) (req : AuthRequest) : M Response :=
  r <- verifyToken E req ;;
  match r with
  | inl sent => ret sent
  | inr req' => summaryHandler E req'
  end.

End Api.

(** ** The data model of the specification *)

(** Modelled from the spec: the seven fixed criteria of section 3; the
    source names them only inside the prompt text. *)
Inductive Criterion : Type :=
| SuggestsNewIdeas | Collaboration | Responsiveness | Adaptability
| Feedback | Attendance | Professionalism.

Definition criteria : list Criterion :=
  [SuggestsNewIdeas; Collaboration; Responsiveness; Adaptability;
   Feedback; Attendance; Professionalism].

Definition criterionName (c : Criterion) : JSString :=
  match c with
  | SuggestsNewIdeas => js "Suggests New Ideas"
  | Collaboration => js "Collaboration"
  | Responsiveness => js "Responsiveness"
  | Adaptability => js "Adaptability"
  | Feedback => js "Feedback"
  | Attendance => js "Attendance"
  | Professionalism => js "Professionalism"
  end.

(** Modelled from the spec: [ScoreCriterion] and [SummaryResult] of section
    3, which the source never declares (the parsed value is untyped). *)
Record ScoreCriterion : Type := { score : Z; justification : JSString }.

(** The scores of a result map every criterion to its [ScoreCriterion]:
    that each of the seven appears is part of the type. *)
Inductive SummaryResult : Type :=
| ScoresResult (summary : JSString) (scores : Criterion -> ScoreCriterion)
| PatternsResult (summary : JSString) (patterns suggestions : list JSString).

(** Modelled from the spec: the invariant of section 3, every score lies
    in 1..5. *)
Definition valid (x : SummaryResult) : bool :=
  match x with
  | ScoresResult _ f =>
      forallb (fun c => (1 <=? score (f c)) && (score (f c) <=? 5)) criteria
  | PatternsResult _ _ _ => true
  end.

(** The JSON number of an integer. *)
Definition numberOfZ (z : Z) : JSON :=
  let (m, e) := JSONText.normalise (S (Z.to_nat (Z.log2 (Z.abs z)))) z 0 in
  JNumber m e.

Definition scoreJSON (sc : ScoreCriterion) : JSON :=
  JObject [(js "score", numberOfZ (score sc));
           (js "justification", JString (justification sc))].

(** The JSON value of a [SummaryResult], with the property names of
    section 6. *)
Definition toJSON (x : SummaryResult) : JSON :=
  match x with
  | ScoresResult s f =>
      JObject
        [(js "summary", JString s);
         (js "scores", JObject (map (fun c => (criterionName c, scoreJSON (f c))) criteria))]
  | PatternsResult s ps gs =>
      JObject
        [(js "summary", JString s);
         (js "patterns", JArray (map JString ps));
         (js "suggestions", JArray (map JString gs))]
  end.

(** Modelled from the spec: [serialize], the compact JSON text of a value,
    without white space. In a string the quote, the backslash and the code
    units below 32 are escaped, every other code unit is written as it is. *)
Module Serialize.

Definition hexDigit (n : N) : CodeUnit := (if n <? 10 then 48 + n else 87 + n)%N.

Definition escapeUnit (c : CodeUnit) : JSString :=
  if (c =? 34)%N then [92; 34]%N
  else if (c =? 92)%N then [92; 92]%N
  else if (c =? 8)%N then [92; 98]%N
  else if (c =? 12)%N then [92; 102]%N
  else if (c =? 10)%N then [92; 110]%N
  else if (c =? 13)%N then [92; 114]%N
  else if (c =? 9)%N then [92; 116]%N
  else if (c <? 32)%N then [92; 117; 48; 48; hexDigit (c / 16); hexDigit (c mod 16)]%N
  else [c].

Fixpoint quoteBody (s : JSString) : JSString :=
  match s with
  | [] => []
  | c :: r => escapeUnit c ++ quoteBody r
  end.

Definition quote (s : JSString) : JSString := 34%N :: quoteBody s ++ [34%N].

(** The digits of [n], most significant first. *)
Fixpoint digitsOf (fuel : nat) (n : Z) (acc : JSString) : JSString :=
  match fuel with
  | O => acc
  | S f =>
      let acc' := Z.to_N (48 + n mod 10) :: acc in
      if n / 10 =? 0 then acc' else digitsOf f (n / 10) acc'
  end.

Definition decimal (z : Z) : JSString :=
  let fuel := S (Z.to_nat (Z.log2 (Z.abs z))) in
  if z <? 0 then 45%N :: digitsOf fuel (- z) [] else digitsOf fuel z [].

(** One property: its name, a colon, the text of its value. *)
Definition memberText (name valueText : JSString) : JSString :=
  quote name ++ 58%N :: valueText.

Definition objectText (members : list (JSString * JSString)) : JSString :=
  LBRACE :: join (map (fun m => memberText (fst m) (snd m)) members) [44%N] ++ [RBRACE].

Definition arrayText (elements : list JSString) : JSString :=
  91%N :: join elements [44%N] ++ [93%N].

Definition scoreText (sc : ScoreCriterion) : JSString :=
  objectText [(js "score", decimal (score sc));
              (js "justification", quote (justification sc))].

Definition serialize (x : SummaryResult) : JSString :=
  match x with
  | ScoresResult s f =>
      objectText
        [(js "summary", quote s);
         (js "scores", objectText (map (fun c => (criterionName c, scoreText (f c))) criteria))]
  | PatternsResult s ps gs =>
      objectText
        [(js "summary", quote s);
         (js "patterns", arrayText (map quote ps));
         (js "suggestions", arrayText (map quote gs))]
  end.

End Serialize.

(** What may follow a value inside a text: nothing, a comma, or a closing
    bracket or brace. *)
Definition delimited (rest : JSString) : bool :=
  match rest with
  | [] => true
  | c :: _ => ((c =? 44) || (c =? 93) || (c =? 125))%N
  end.

(** The text [valueText] starts a value: it begins with no white space, and
    with fuel [k] or more the parser reads it as [v] and stops at its end. *)
Definition parsesTo (valueText : JSString) (v : JSON) (k : nat) : Prop :=
  (forall rest, JSONText.skipWs (valueText ++ rest) = valueText ++ rest)
  /\ forall n rest, (k <= n)%nat -> delimited rest = true ->
       JSONText.parseValue n (valueText ++ rest) = Some (v, rest).

(** Modelled from the spec: a serialization of the value [v] is a JSON
    object text, from its opening to its closing brace, that the parser
    reads back as [v]. *)
Definition serializes (E : Env) (s : JSString) (v : JSON) : Prop :=
  (exists inner, s = LBRACE :: inner ++ [RBRACE]) /\ JSON_parse E s = Parsed v.

(** Modelled from the spec: the substring from the first opening brace to
    the last closing brace inclusive (section 4.2), when there is one. *)
Definition braceSpan (rawText : JSString) : option JSString :=
  let i := indexOf rawText [LBRACE] in
  let j := lastIndexOf rawText [RBRACE] in
  if (i =? -1) || (j =? -1) || (j <? i) then None
  else Some (firstn (Z.to_nat (j + 1 - i)) (skipn (Z.to_nat i) rawText)).

(** The code units of [s] from index [from] up to, not including, [to]. *)
Definition slice (s : JSString) (from to : Z) : JSString :=
  firstn (Z.to_nat (to - from)) (skipn (Z.to_nat from) s).

(** The output schema each template states, as the source writes it. *)
Definition scoresSchemaText : JSString := jsq "{
  ~summary~: ~Your 2-3 sentence summary here.~,
  ~scores~: {
    ~Suggests New Ideas~: { ~score~: 1-5, ~justification~: ~Your justification.~ },
    ~Collaboration~: { ~score~: 1-5, ~justification~: ~Your justification.~ },
    ~Responsiveness~: { ~score~: 1-5, ~justification~: ~Your justification.~ },
    ~Adaptability~: { ~score~: 1-5, ~justification~: ~Your justification.~ },
    ~Feedback~: { ~score~: 1-5, ~justification~: ~Your justification.~ },
    ~Attendance~: { ~score~: 1-5, ~justification~: ~Your justification.~ },
    ~Professionalism~: { ~score~: 1-5, ~justification~: ~Your justification.~ }
  }
}".

Definition patternsSchemaText : JSString := jsq "{
  ~summary~: ~A 2-3 sentence overall summary of performance.~,
  ~patterns~: [~A list of key behavioral patterns (strengths or weaknesses).~],
  ~suggestions~: [~A list of actionable suggestions for improvement (if any).~]
}".

(** The rule of the neutral default, as the scores template words it. *)
Definition neutralRuleText : JSString :=
  js "If there is NO INFORMATION, score it as 3 (Neutral) and justify with 'Insufficient information.'".

(** The text strictly between the last closing brace and a first opening
    brace that comes after it. *)
Definition textBetween (rawText : JSString) : JSString :=
  slice rawText (lastIndexOf rawText [RBRACE] + 1) (indexOf rawText [LBRACE]).

(** ** Observations on a run *)

(** The header carries a bearer credential: the test of [verifyToken]. *)
Definition hasBearer (authHeader : option JSString) : bool :=
  negb (falsy authHeader || negb (startsWith (valueOf authHeader) (js "Bearer "))).

(** The token [verifyToken] hands to the verifier. *)
Definition idTokenOf (authHeader : option JSString) : option JSString :=
  nth_error (split (valueOf authHeader) (js "Bearer ")) 1.

(** The outcome of the token verification for a request with a bearer
    credential. *)
Definition verification (E : Env) (req : AuthRequest) : option (Outcome DecodedIdToken) :=
  if hasBearer (authorization req) then
    match idTokenOf (authorization req) with
    | Some t => Some (verifyIdToken E t)
    | None => None
    end
  else None.

(** The incident sequence the store returns for the request. *)
Definition fetched (E : Env) (req : AuthRequest) : Outcome QuerySnapshot :=
  incidents_get E (mentorId req) (tutorId req).

Definition withUser (req : AuthRequest) (u : DecodedIdToken) : AuthRequest :=
  {| authorization := authorization req;
     mentorId := mentorId req;
     tutorId := tutorId req;
     user := Some u |}.


(** [String.prototype.includes(searchString)]. *)
Definition containsText (s searchString : JSString) : bool :=
  negb (indexOf s searchString =? -1).

(** What the extraction step makes of the parser's answer. *)
Definition parseOutcome (r : ParseResult) : Outcome JSON :=
  match r with
  | Parsed v => Returned v
  | SyntaxErrorAt message => Thrown (MalformedJson message)
  end.

(** The verified caller is the owner named in the path. *)
Definition authorised (E : Env) (req : AuthRequest) : Prop :=
  exists u, verification E req = Some (Returned u) /\ uid u = mentorId req.

(** The request is authorised, the store returns a non-empty snapshot, and
    the provider's outcome for the request [genAIRequest] builds from it is
    [reply]. *)
Definition answers (genAIRequest : list JSString -> GenerateContentParameters)
           (E : Env) (req : AuthRequest) (reply : Outcome GenerateContentResponse) : Prop :=
  authorised E req /\
  exists snapshot,
    fetched E req = Returned snapshot /\ docs snapshot <> [] /\
    generateContent E (genAIRequest (map (incidentText E) (docs snapshot))) = reply.

(** The failures after authorization, each with the exception it raises:
    the store read throws, the provider call throws, the provider returns
    no text, the extraction fails. *)
Inductive failure (genAIRequest : list JSString -> GenerateContentParameters)
          (E : Env) (req : AuthRequest) : Exn -> Prop :=
| StoreFailure e :
    authorised E req -> fetched E req = Thrown e ->
    failure genAIRequest E req e
| ProviderFailure e :
    answers genAIRequest E req (Thrown e) ->
    failure genAIRequest E req e
| ProviderNoText reply :
    answers genAIRequest E req (Returned reply) -> falsy (text reply) = true ->
    failure genAIRequest E req (Error (js "No text response from AI."))
| ExtractionFailure reply e :
    answers genAIRequest E req (Returned reply) -> falsy (text reply) = false ->
    extract E (valueOf (text reply)) = Thrown e ->
    failure genAIRequest E req e.

(** The line the catch block of the handler logs. *)
Definition errorLine (e : Exn) : Event :=
  ConsoleError [LogText (js "Error in /summary route:"); LogExn e].

Definition findingLine : Event := ConsoleLog [LogText (js "finding summary:...")].

(** Both handlers at once, with the two things that differ between the
    files as parameters: the canned result and the request built for the
    provider. *)
Definition summaryHandlerWith (emptyResult : JSON)
           (genAIRequest : list JSString -> GenerateContentParameters)
           (E : Env) (req : AuthRequest) : M Response :=
  tryCatch
    (if uidDiffers (user req) (mentorId req) then ret forbidden
     else
       snapshot <- await (IncidentsGet (mentorId req) (tutorId req))
                         (incidents_get E (mentorId req) (tutorId req)) ;;
       if empty snapshot then ret (json 200 emptyResult)
       else
         let incidentTexts := map (incidentText E) (docs snapshot) in
         result <- await (GenerateContentCall (genAIRequest incidentTexts))
                         (generateContent E (genAIRequest incidentTexts)) ;;
         emit (ConsoleLog [LogText (js "finding summary:...")]) ;;
         let jsonString := text result in
         if falsy jsonString then throw (Error (js "No text response from AI."))
         else
           summaryJson <- lift (extract E (valueOf jsonString)) ;;
           emit (ConsoleLog [LogValue summaryJson]) ;;
           ret (json 200 summaryJson))
    (fun error =>
       emit (ConsoleError [LogText (js "Error in /summary route:"); LogExn error]) ;;
       ret genericFailure).

Definition routeWith (emptyResult : JSON)
           (genAIRequest : list JSString -> GenerateContentParameters)
           (E : Env) (req : AuthRequest) : M Response :=
  r <- verifyToken E req ;;
  match r with
  | inl sent => ret sent
  | inr req' => summaryHandlerWith emptyResult genAIRequest E req'
  end.

(** ** The shapes of a run

    The token [verifyToken] cuts out of a header made of the bearer prefix
    and [rest]: the text after the prefix, up to the next occurrence of the
    prefix when [rest] holds one ([split] cuts at every occurrence and the
    code takes the piece of index 1). *)
Definition tokenAfterPrefix (rest : JSString) : JSString :=
  let i := indexOf rest (js "Bearer ") in
  if i =? -1 then rest else firstn (Z.to_nat i) rest.

(** The calls of the collaborators among the events of a run. *)
Definition isCall (ev : Event) : bool :=
  isVerifierCall ev || isStoreCall ev || isProviderCall ev.

Definition calls (tr : list Event) : list Event := filter isCall tr.

Definition isErrorLog (ev : Event) : bool :=
  match ev with ConsoleError _ => true | _ => false end.

Definition tokenErrorLine (e : Exn) : Event :=
  ConsoleError [LogText (js "Error verifying token:"); LogExn e].

(** The nine ways through [verifyToken] and the handler, each with the
    events it leaves and the response it sends. *)
Inductive runs (emptyResult : JSON)
          (genAIRequest : list JSString -> GenerateContentParameters)
          (E : Env) (req : AuthRequest) : M Response -> Prop :=
| RunNoCredential :
    hasBearer (authorization req) = false ->
    runs emptyResult genAIRequest E req ([], Returned unauthorized)
| RunInvalidToken t e :
    idTokenOf (authorization req) = Some t ->
    verification E req = Some (Thrown e) ->
    runs emptyResult genAIRequest E req
         ([VerifyIdTokenCall t; tokenErrorLine e], Returned invalidToken)
| RunForeignOwner t u :
    idTokenOf (authorization req) = Some t ->
    verification E req = Some (Returned u) -> uid u <> mentorId req ->
    runs emptyResult genAIRequest E req ([VerifyIdTokenCall t], Returned forbidden)
| RunStoreFailure t e :
    idTokenOf (authorization req) = Some t ->
    authorised E req -> fetched E req = Thrown e ->
    runs emptyResult genAIRequest E req
         ([VerifyIdTokenCall t; IncidentsGet (mentorId req) (tutorId req); errorLine e],
          Returned genericFailure)
| RunEmpty t snapshot :
    idTokenOf (authorization req) = Some t ->
    authorised E req -> fetched E req = Returned snapshot -> docs snapshot = [] ->
    runs emptyResult genAIRequest E req
         ([VerifyIdTokenCall t; IncidentsGet (mentorId req) (tutorId req)],
          Returned (json 200 emptyResult))
| RunProviderFailure t snapshot e :
    idTokenOf (authorization req) = Some t ->
    authorised E req -> fetched E req = Returned snapshot -> docs snapshot <> [] ->
    generateContent E (genAIRequest (map (incidentText E) (docs snapshot))) = Thrown e ->
    runs emptyResult genAIRequest E req
         ([VerifyIdTokenCall t; IncidentsGet (mentorId req) (tutorId req);
           GenerateContentCall (genAIRequest (map (incidentText E) (docs snapshot)));
           errorLine e],
          Returned genericFailure)
| RunNoText t snapshot reply :
    idTokenOf (authorization req) = Some t ->
    authorised E req -> fetched E req = Returned snapshot -> docs snapshot <> [] ->
    generateContent E (genAIRequest (map (incidentText E) (docs snapshot))) = Returned reply ->
    falsy (text reply) = true ->
    runs emptyResult genAIRequest E req
         ([VerifyIdTokenCall t; IncidentsGet (mentorId req) (tutorId req);
           GenerateContentCall (genAIRequest (map (incidentText E) (docs snapshot)));
           findingLine; errorLine (Error (js "No text response from AI."))],
          Returned genericFailure)
| RunExtractionFailure t snapshot reply e :
    idTokenOf (authorization req) = Some t ->
    authorised E req -> fetched E req = Returned snapshot -> docs snapshot <> [] ->
    generateContent E (genAIRequest (map (incidentText E) (docs snapshot))) = Returned reply ->
    falsy (text reply) = false ->
    extract E (valueOf (text reply)) = Thrown e ->
    runs emptyResult genAIRequest E req
         ([VerifyIdTokenCall t; IncidentsGet (mentorId req) (tutorId req);
           GenerateContentCall (genAIRequest (map (incidentText E) (docs snapshot)));
           findingLine; errorLine e],
          Returned genericFailure)
| RunSummary t snapshot reply summaryJson :
    idTokenOf (authorization req) = Some t ->
    authorised E req -> fetched E req = Returned snapshot -> docs snapshot <> [] ->
    generateContent E (genAIRequest (map (incidentText E) (docs snapshot))) = Returned reply ->
    falsy (text reply) = false ->
    extract E (valueOf (text reply)) = Returned summaryJson ->
    runs emptyResult genAIRequest E req
         ([VerifyIdTokenCall t; IncidentsGet (mentorId req) (tutorId req);
           GenerateContentCall (genAIRequest (map (incidentText E) (docs snapshot)));
           findingLine; ConsoleLog [LogValue summaryJson]],
          Returned (json 200 summaryJson)).

(** ** A concrete environment

    The two built-ins as modelled above, a verifier that knows one token,
    a store and a provider with one fixed answer each. *)
Module Sample.

Definition verifier (t : JSString) : Outcome DecodedIdToken :=
  if str_eqb t (js "token-of-m1") then Returned {| uid := js "m1" |}
  else Thrown (Rejection (js "Decoding Firebase ID token failed")).

Definition env (snapshot : Outcome QuerySnapshot)
           (reply : Outcome GenerateContentResponse) : Env :=
  {| JSON_parse := JSONText.parse;
     toISOString := DateModel.toISOString;
     verifyIdToken := verifier;
     incidents_get := fun _ _ => snapshot;
     generateContent := fun _ => reply |}.

Definition request (header : option JSString) (owner : JSString) : AuthRequest :=
  {| authorization := header; mentorId := owner; tutorId := js "t1"; user := None |}.

Definition goodHeader : option JSString := Some (js "Bearer token-of-m1").

Definition incident1 : DocumentData :=
  {| date := Some {| seconds := 1700000000; nanoseconds := 0 |};
     description := js "Arrived late to the session" |}.

Definition incident2 : DocumentData :=
  {| date := None; description := js "Proposed a new exercise format" |}.

Definition twoIncidents : Outcome QuerySnapshot :=
  Returned {| docs := [incident1; incident2] |}.

Definition noIncidents : Outcome QuerySnapshot := Returned {| docs := [] |}.

Definition replies (t : JSString) : Outcome GenerateContentResponse :=
  Returned {| text := Some t |}.

Definition okText : JSString := jsq "{~summary~:~ok~,~scores~:{}}".

Definition neutral : ScoreCriterion :=
  {| score := 3; justification := js "Insufficient information." |}.

Definition neutralResult : SummaryResult :=
  ScoresResult (js "ok") (fun _ => neutral).

Definition neutralText : JSString :=
  jsq "{~summary~:~ok~,~scores~:{~Suggests New Ideas~:{~score~:3,~justification~:~Insufficient information.~},~Collaboration~:{~score~:3,~justification~:~Insufficient information.~},~Responsiveness~:{~score~:3,~justification~:~Insufficient information.~},~Adaptability~:{~score~:3,~justification~:~Insufficient information.~},~Feedback~:{~score~:3,~justification~:~Insufficient information.~},~Attendance~:{~score~:3,~justification~:~Insufficient information.~},~Professionalism~:{~score~:3,~justification~:~Insufficient information.~}}}".

Definition owner : AuthRequest := request goodHeader (js "m1").

Definition stranger : AuthRequest := request goodHeader (js "m2").

Definition anonymous : AuthRequest := request None (js "m1").

Definition forged : AuthRequest := request (Some (js "Bearer forged")) (js "m1").

(** The store holds two incidents and the provider returns [t]. *)
Definition answering (t : JSString) : Env := env twoIncidents (replies t).

Definition emptyStore : Env := env noIncidents (replies okText).

Definition storeDown : Env :=
  env (Thrown (Rejection (js "UNAVAILABLE: the store cannot be reached"))) (replies okText).

Definition providerDown : Env :=
  env twoIncidents (Thrown (Rejection (js "503 from the provider: model overloaded"))).

End Sample.

(** * Properties *)

(** ** Strings: first and last occurrence of a code unit *)

Section Occurrences.

Variable c : CodeUnit.

Lemma startsWith_unit (s : JSString) :
  startsWith s [c] = match s with d :: _ => (c =? d)%N | [] => false end.
Proof.
  destruct s as [|d s']; simpl; [reflexivity | apply andb_true_r].
Qed.

Lemma includes_app (a b : JSString) :
  includes (a ++ b) c = includes a c || includes b c.
Proof. unfold includes. apply existsb_app. Qed.

Lemma includes_cons (d : CodeUnit) (s : JSString) :
  includes (d :: s) c = (c =? d)%N || includes s c.
Proof. reflexivity. Qed.

Lemma indexOfFrom_absent (s : JSString) (k : Z) :
  includes s c = false -> indexOfFrom s [c] k = -1.
Proof.
  revert k. induction s as [|d s IH]; intros k H.
  - reflexivity.
  - rewrite includes_cons in H. apply orb_false_iff in H as [Hd Hs].
    cbn [indexOfFrom]. rewrite startsWith_unit, Hd. now apply IH.
Qed.

Lemma indexOfFrom_first (pre rest : JSString) (k : Z) :
  includes pre c = false ->
  indexOfFrom (pre ++ c :: rest) [c] k = k + Z.of_nat (length pre).
Proof.
  revert k. induction pre as [|d pre IH]; intros k H.
  - cbn [app indexOfFrom]. rewrite startsWith_unit, N.eqb_refl. simpl. lia.
  - rewrite includes_cons in H. apply orb_false_iff in H as [Hd Hs].
    cbn [app indexOfFrom]. rewrite startsWith_unit, Hd, IH by assumption.
    cbn [length]. lia.
Qed.

Lemma lastIndexOfFrom_absent (s : JSString) (k best : Z) :
  includes s c = false -> lastIndexOfFrom s [c] k best = best.
Proof.
  revert k best. induction s as [|d s IH]; intros k best H.
  - reflexivity.
  - rewrite includes_cons in H. apply orb_false_iff in H as [Hd Hs].
    cbn [lastIndexOfFrom]. rewrite startsWith_unit, Hd. now apply IH.
Qed.

Lemma lastIndexOfFrom_last (pre suf : JSString) (k best : Z) :
  includes suf c = false ->
  lastIndexOfFrom (pre ++ c :: suf) [c] k best = k + Z.of_nat (length pre).
Proof.
  revert k best. induction pre as [|d pre IH]; intros k best H.
  - cbn [app lastIndexOfFrom]. rewrite startsWith_unit, N.eqb_refl.
    rewrite lastIndexOfFrom_absent by assumption. simpl. lia.
  - cbn [app lastIndexOfFrom]. rewrite IH by assumption. cbn [length]. lia.
Qed.

Lemma split_at_first (s : JSString) :
  includes s c = true ->
  exists pre rest, s = pre ++ c :: rest /\ includes pre c = false.
Proof.
  induction s as [|d s IH]; intros H.
  - discriminate.
  - rewrite includes_cons in H. destruct (c =? d)%N eqn:Hd.
    + apply N.eqb_eq in Hd. subst d. now exists [], s.
    + destruct (IH H) as (pre & rest & -> & Hpre).
      exists (d :: pre), rest. split; [reflexivity|].
      rewrite includes_cons, Hd. exact Hpre.
Qed.

Lemma split_at_last (s : JSString) :
  includes s c = true ->
  exists pre suf, s = pre ++ c :: suf /\ includes suf c = false.
Proof.
  induction s as [|d s IH]; intros H.
  - discriminate.
  - destruct (includes s c) eqn:Hs.
    + destruct (IH eq_refl) as (pre & suf & -> & Hsuf).
      now exists (d :: pre), suf.
    + rewrite includes_cons, Hs, orb_false_r in H.
      apply N.eqb_eq in H. subst d. now exists [], s.
Qed.

Lemma indexOf_absent_iff (s : JSString) :
  indexOf s [c] = -1 <-> includes s c = false.
Proof.
  split; intros H.
  - destruct (includes s c) eqn:Hs; [|reflexivity].
    destruct (split_at_first s Hs) as (pre & rest & -> & Hpre).
    unfold indexOf in H. rewrite indexOfFrom_first in H by assumption. lia.
  - now apply indexOfFrom_absent.
Qed.

Lemma lastIndexOf_absent_iff (s : JSString) :
  lastIndexOf s [c] = -1 <-> includes s c = false.
Proof.
  split; intros H.
  - destruct (includes s c) eqn:Hs; [|reflexivity].
    destruct (split_at_last s Hs) as (pre & suf & -> & Hsuf).
    unfold lastIndexOf in H. rewrite lastIndexOfFrom_last in H by assumption. lia.
  - now apply lastIndexOfFrom_absent.
Qed.

Lemma indexOf_first (pre rest : JSString) :
  includes pre c = false ->
  indexOf (pre ++ c :: rest) [c] = Z.of_nat (length pre).
Proof. intros H. unfold indexOf. now rewrite indexOfFrom_first. Qed.

Lemma lastIndexOf_last (pre suf : JSString) :
  includes suf c = false ->
  lastIndexOf (pre ++ c :: suf) [c] = Z.of_nat (length pre).
Proof. intros H. unfold lastIndexOf. now rewrite lastIndexOfFrom_last. Qed.

Lemma indexOf_bounds (s : JSString) :
  includes s c = true -> 0 <= indexOf s [c] < Z.of_nat (length s).
Proof.
  intros H. destruct (split_at_first s H) as (pre & rest & -> & Hpre).
  rewrite indexOf_first by assumption. rewrite length_app. cbn [length]. lia.
Qed.

Lemma lastIndexOf_bounds (s : JSString) :
  includes s c = true -> 0 <= lastIndexOf s [c] < Z.of_nat (length s).
Proof.
  intros H. destruct (split_at_last s H) as (pre & suf & -> & Hsuf).
  rewrite lastIndexOf_last by assumption. rewrite length_app. cbn [length]. lia.
Qed.

End Occurrences.

(** ** Strings: [substring] *)

Lemma substring_ordered (s : JSString) (a b : Z) :
  0 <= a <= b -> b <= Z.of_nat (length s) -> substring s a b = slice s a b.
Proof.
  intros Ha Hb. unfold substring, slice.
  replace (Z.min (Z.max a 0) (Z.of_nat (length s))) with a by lia.
  replace (Z.min (Z.max b 0) (Z.of_nat (length s))) with b by lia.
  now replace (Z.min a b) with a by lia; replace (Z.max a b) with b by lia.
Qed.

Lemma substring_swapped (s : JSString) (a b : Z) :
  0 <= b <= a -> a <= Z.of_nat (length s) -> substring s a b = slice s b a.
Proof.
  intros Hb Ha. unfold substring, slice.
  replace (Z.min (Z.max a 0) (Z.of_nat (length s))) with a by lia.
  replace (Z.min (Z.max b 0) (Z.of_nat (length s))) with b by lia.
  now replace (Z.min a b) with b by lia; replace (Z.max a b) with a by lia.
Qed.

Lemma slice_middle (a b d : JSString) :
  slice (a ++ b ++ d) (Z.of_nat (length a)) (Z.of_nat (length a) + Z.of_nat (length b)) = b.
Proof.
  unfold slice. rewrite Nat2Z.id.
  replace (Z.to_nat (Z.of_nat (length a) + Z.of_nat (length b) - Z.of_nat (length a)))
    with (length b) by lia.
  rewrite skipn_app, skipn_all, Nat.sub_diag. cbn [app skipn].
  rewrite firstn_app, firstn_all, Nat.sub_diag. cbn [firstn]. apply app_nil_r.
Qed.

(** ** The extraction step *)

Lemma extract_absent (E : Env) (t : JSString) :
  includes t LBRACE = false \/ includes t RBRACE = false ->
  extract E t = Thrown NoJsonFound.
Proof.
  intros H. unfold extract.
  destruct H as [H | H].
  - apply indexOf_absent_iff in H. now rewrite H.
  - apply lastIndexOf_absent_iff in H. rewrite H. now rewrite orb_true_r.
Qed.

Lemma extract_present (E : Env) (t : JSString) :
  includes t LBRACE = true -> includes t RBRACE = true ->
  extract E t =
  parseOutcome
    (JSON_parse E (substring t (indexOf t [LBRACE]) (lastIndexOf t [RBRACE] + 1))).
Proof.
  intros Hl Hr. unfold extract.
  pose proof (indexOf_bounds LBRACE t Hl) as Bi.
  pose proof (lastIndexOf_bounds RBRACE t Hr) as Bj.
  destruct (indexOf t [LBRACE] =? -1) eqn:Ei; [lia|].
  destruct (lastIndexOf t [RBRACE] =? -1) eqn:Ej; [lia|].
  reflexivity.
Qed.

(** When the first opening brace precedes the last closing brace, the text
    parsed is the span between them, both included. *)
Lemma extract_span (E : Env) (t sub : JSString) :
  braceSpan t = Some sub -> extract E t = parseOutcome (JSON_parse E sub).
Proof.
  unfold braceSpan. intros H.
  destruct (indexOf t [LBRACE] =? -1) eqn:Ei; [discriminate|].
  destruct (lastIndexOf t [RBRACE] =? -1) eqn:Ej; [discriminate|].
  destruct (lastIndexOf t [RBRACE] <? indexOf t [LBRACE]) eqn:Eo; [discriminate|].
  cbn [orb] in H. injection H as <-.
  assert (Hl : includes t LBRACE = true).
  { destruct (includes t LBRACE) eqn:X; [reflexivity|].
    apply indexOf_absent_iff in X. lia. }
  assert (Hr : includes t RBRACE = true).
  { destruct (includes t RBRACE) eqn:X; [reflexivity|].
    apply lastIndexOf_absent_iff in X. lia. }
  rewrite extract_present by assumption.
  pose proof (indexOf_bounds LBRACE t Hl) as Bi.
  pose proof (lastIndexOf_bounds RBRACE t Hr) as Bj.
  rewrite substring_ordered by lia. reflexivity.
Qed.

(** When the last closing brace comes before the first opening brace, the
    text parsed is what lies strictly between the two. *)
Lemma extract_reversed (E : Env) (t : JSString) :
  includes t LBRACE = true -> includes t RBRACE = true ->
  lastIndexOf t [RBRACE] < indexOf t [LBRACE] ->
  extract E t =
  parseOutcome
    (JSON_parse E (slice t (lastIndexOf t [RBRACE] + 1) (indexOf t [LBRACE]))).
Proof.
  intros Hl Hr Hlt. rewrite extract_present by assumption.
  pose proof (indexOf_bounds LBRACE t Hl) as Bi.
  pose proof (lastIndexOf_bounds RBRACE t Hr) as Bj.
  rewrite substring_swapped by lia. reflexivity.
Qed.

(** A JSON object text set between a prefix without opening brace and a
    suffix without closing brace is recovered whole. *)
Lemma braceSpan_embedded (prefix inner suffix : JSString) :
  includes prefix LBRACE = false -> includes suffix RBRACE = false ->
  braceSpan (prefix ++ (LBRACE :: inner ++ [RBRACE]) ++ suffix)
  = Some (LBRACE :: inner ++ [RBRACE]).
Proof.
  intros Hp Hs. unfold braceSpan.
  set (s := LBRACE :: inner ++ [RBRACE]).
  assert (Ei : indexOf (prefix ++ s ++ suffix) [LBRACE] = Z.of_nat (length prefix)).
  { unfold s. cbn [app]. now apply indexOf_first. }
  assert (Ej : lastIndexOf (prefix ++ s ++ suffix) [RBRACE]
               = Z.of_nat (length prefix) + Z.of_nat (length s) - 1).
  { unfold s.
    replace (prefix ++ (LBRACE :: inner ++ [RBRACE]) ++ suffix)
      with ((prefix ++ LBRACE :: inner) ++ RBRACE :: suffix)
      by (rewrite <- !app_assoc; cbn [app]; now rewrite <- app_assoc).
    rewrite lastIndexOf_last by assumption.
    cbn [length]. rewrite !length_app. cbn [length]. lia. }
  rewrite Ei, Ej.
  assert (Hlen : (0 < length s)%nat) by (unfold s; cbn [length]; lia).
  destruct (Z.of_nat (length prefix) =? -1) eqn:E1; [lia|].
  destruct (Z.of_nat (length prefix) + Z.of_nat (length s) - 1 =? -1) eqn:E2; [lia|].
  destruct (Z.of_nat (length prefix) + Z.of_nat (length s) - 1 <? Z.of_nat (length prefix))
    eqn:E3; [lia|].
  cbn [orb]. f_equal.
  replace (Z.of_nat (length prefix) + Z.of_nat (length s) - 1 + 1 - Z.of_nat (length prefix))
    with (Z.of_nat (length prefix) + Z.of_nat (length s) - Z.of_nat (length prefix)) by lia.
  apply (slice_middle prefix s suffix).
Qed.

(** There is no span exactly when a brace is missing or the last closing
    brace comes before the first opening one. *)
Lemma braceSpan_none (t : JSString) :
  braceSpan t = None <->
  includes t LBRACE = false \/ includes t RBRACE = false
  \/ lastIndexOf t [RBRACE] < indexOf t [LBRACE].
Proof.
  unfold braceSpan. rewrite <- indexOf_absent_iff, <- lastIndexOf_absent_iff.
  destruct (indexOf t [LBRACE] =? -1) eqn:Ei;
    destruct (lastIndexOf t [RBRACE] =? -1) eqn:Ej;
    destruct (lastIndexOf t [RBRACE] <? indexOf t [LBRACE]) eqn:Eo;
    cbn [orb]; split; intros H; try reflexivity; try discriminate; lia.
Qed.

(** The extraction as section 4.2 words it, wherever a span exists or a
    brace is missing: NoJsonFound without one of the braces; otherwise the
    span is parsed, the parsed value is returned and a parse error is
    rethrown as MalformedJson. *)
Lemma extract_as_specified (E : Env) (t : JSString) :
  (includes t LBRACE = false \/ includes t RBRACE = false ->
   extract E t = Thrown NoJsonFound)
  /\ forall sub, braceSpan t = Some sub ->
       (forall J, JSON_parse E sub = Parsed J -> extract E t = Returned J)
       /\ (forall message, JSON_parse E sub = SyntaxErrorAt message ->
                           extract E t = Thrown (MalformedJson message)).
Proof.
  split; [apply extract_absent|].
  intros sub Hs. rewrite (extract_span E t sub Hs).
  split; [intros J -> | intros message ->]; reflexivity.
Qed.

(** ** The middleware *)

Lemma str_eqb_eq (a b : JSString) : str_eqb a b = true <-> a = b.
Proof.
  revert b. induction a as [|c a IH]; intros [|d b]; cbn [str_eqb];
    try (split; [discriminate | discriminate]); try tauto.
  rewrite andb_true_iff, N.eqb_eq, IH. split.
  - intros [-> ->]. reflexivity.
  - intros H. injection H as -> ->. tauto.
Qed.

Lemma uidDiffers_owner (u : DecodedIdToken) (owner : JSString) :
  uidDiffers (Some u) owner = false <-> uid u = owner.
Proof.
  cbn [uidDiffers]. rewrite negb_false_iff. apply str_eqb_eq.
Qed.

Lemma splitFrom_nonempty (s separator cur : JSString) (skip : nat) :
  splitFrom s separator cur skip <> [].
Proof.
  revert cur skip. induction s as [|c s IH]; intros cur skip; cbn [splitFrom].
  - discriminate.
  - destruct skip; [|apply IH].
    destruct (startsWith (c :: s) separator); [discriminate | apply IH].
Qed.

(** A header that passes the test of [verifyToken] always yields a token. *)
Lemma bearer_has_token (authHeader : option JSString) :
  hasBearer authHeader = true -> exists t, idTokenOf authHeader = Some t.
Proof.
  unfold hasBearer, idTokenOf. rewrite negb_true_iff, orb_false_iff, negb_false_iff.
  intros [_ H]. destruct (valueOf authHeader) as [|c h] eqn:Eh; [discriminate|].
  unfold split. cbn [splitFrom]. rewrite H. cbn [nth_error].
  destruct (splitFrom h (js "Bearer ") [] (pred (length (js "Bearer ")))) as [|x l] eqn:Es.
  - now apply splitFrom_nonempty in Es.
  - now exists x.
Qed.

Lemma verification_total (E : Env) (req : AuthRequest) :
  hasBearer (authorization req) = true -> exists o, verification E req = Some o.
Proof.
  intros H. unfold verification. rewrite H.
  destruct (bearer_has_token _ H) as [t ->]. eauto.
Qed.

Lemma hasBearer_false (authHeader : option JSString) :
  hasBearer authHeader = false <->
  authHeader = None \/
  exists h, authHeader = Some h /\ startsWith h (js "Bearer ") = false.
Proof.
  unfold hasBearer. rewrite negb_false_iff, orb_true_iff, negb_true_iff. split.
  - intros [H | H].
    + destruct authHeader as [[|c h]|]; try discriminate; [right | now left].
      now exists [].
    + destruct authHeader as [h|]; [right | now left]. now exists h.
  - intros [-> | (h & -> & H)]; [now left | now right].
Qed.

Lemma verifyToken_no_bearer (E : Env) (req : AuthRequest) :
  hasBearer (authorization req) = false ->
  verifyToken E req = ([], Returned (inl unauthorized)).
Proof.
  unfold hasBearer, verifyToken. rewrite negb_false_iff. now intros ->.
Qed.

Lemma verifyToken_rejected (E : Env) (req : AuthRequest) (e : Exn) :
  verification E req = Some (Thrown e) ->
  exists t,
    verifyToken E req =
    ([VerifyIdTokenCall t; ConsoleError [LogText (js "Error verifying token:"); LogExn e]],
     Returned (inl invalidToken)).
Proof.
  unfold verification, verifyToken, idTokenOf, hasBearer.
  destruct (falsy (authorization req)
            || negb (startsWith (valueOf (authorization req)) (js "Bearer ")));
    cbn [negb]; [discriminate|].
  destruct (nth_error (split (valueOf (authorization req)) (js "Bearer ")) 1)
    as [t|]; [|discriminate].
  intros H. injection H as H. exists t. cbn. now rewrite H.
Qed.

Lemma verifyToken_accepted (E : Env) (req : AuthRequest) (u : DecodedIdToken) :
  verification E req = Some (Returned u) ->
  exists t, verifyToken E req = ([VerifyIdTokenCall t], Returned (inr (withUser req u))).
Proof.
  unfold verification, verifyToken, idTokenOf, hasBearer.
  destruct (falsy (authorization req)
            || negb (startsWith (valueOf (authorization req)) (js "Bearer ")));
    cbn [negb]; [discriminate|].
  destruct (nth_error (split (valueOf (authorization req)) (js "Bearer ")) 1)
    as [t|]; [|discriminate].
  intros H. injection H as H. exists t. cbn. now rewrite H.
Qed.

(** ** The handler, stage by stage *)

Lemma Src_route_generic (E : Env) (req : AuthRequest) :
  Src.route E req = routeWith Src.emptyResult Src.genAIRequest E req.
Proof. reflexivity. Qed.

Lemma Api_route_generic (E : Env) (req : AuthRequest) :
  Api.route E req = routeWith Api.emptyResult Api.genAIRequest E req.
Proof. reflexivity. Qed.

Lemma Src_route_generic_ext (E : Env) :
  Src.route E = routeWith Src.emptyResult Src.genAIRequest E.
Proof. reflexivity. Qed.

Lemma Api_route_generic_ext (E : Env) :
  Api.route E = routeWith Api.emptyResult Api.genAIRequest E.
Proof. reflexivity. Qed.

Section Pipeline.

Variable emptyResult : JSON.
Variable genAIRequest : list JSString -> GenerateContentParameters.
Variable E : Env.

Let handler := summaryHandlerWith emptyResult genAIRequest E.
Let route := routeWith emptyResult genAIRequest E.

Lemma route_no_bearer (req : AuthRequest) :
  hasBearer (authorization req) = false -> route req = ([], Returned unauthorized).
Proof.
  intros H. unfold route, routeWith. now rewrite verifyToken_no_bearer.
Qed.

Lemma route_rejected (req : AuthRequest) (e : Exn) :
  verification E req = Some (Thrown e) ->
  exists t,
    route req =
    ([VerifyIdTokenCall t; ConsoleError [LogText (js "Error verifying token:"); LogExn e]],
     Returned invalidToken).
Proof.
  intros H. destruct (verifyToken_rejected E req e H) as [t Ht]. exists t.
  unfold route, routeWith. now rewrite Ht.
Qed.

Lemma route_accepted (req : AuthRequest) (u : DecodedIdToken) :
  verification E req = Some (Returned u) ->
  exists t,
    route req =
    (VerifyIdTokenCall t :: trace (handler (withUser req u)),
     outcome (handler (withUser req u))).
Proof.
  intros H. destruct (verifyToken_accepted E req u H) as [t Ht]. exists t.
  unfold route, routeWith. rewrite Ht. unfold bind, trace, outcome.
  fold handler. now destruct (handler (withUser req u)).
Qed.

Lemma handler_foreign (req : AuthRequest) (u : DecodedIdToken) :
  uid u <> mentorId req -> handler (withUser req u) = ([], Returned forbidden).
Proof.
  intros H. unfold handler, summaryHandlerWith. cbn [user mentorId withUser].
  destruct (uidDiffers (Some u) (mentorId req)) eqn:Hd; [reflexivity|].
  now apply uidDiffers_owner in Hd.
Qed.

Lemma handler_store_fails (req : AuthRequest) (u : DecodedIdToken) (e : Exn) :
  uid u = mentorId req -> fetched E req = Thrown e ->
  handler (withUser req u) =
  ([IncidentsGet (mentorId req) (tutorId req); errorLine e], Returned genericFailure).
Proof.
  intros Hu Hf. apply uidDiffers_owner in Hu. unfold fetched in Hf.
  unfold handler, summaryHandlerWith. cbn [user mentorId tutorId withUser].
  rewrite Hu, Hf. reflexivity.
Qed.

Lemma handler_empty (req : AuthRequest) (u : DecodedIdToken) (snapshot : QuerySnapshot) :
  uid u = mentorId req -> fetched E req = Returned snapshot -> docs snapshot = [] ->
  handler (withUser req u) =
  ([IncidentsGet (mentorId req) (tutorId req)], Returned (json 200 emptyResult)).
Proof.
  intros Hu Hf Hd. apply uidDiffers_owner in Hu. unfold fetched in Hf.
  unfold handler, summaryHandlerWith. cbn [user mentorId tutorId withUser].
  rewrite Hu, Hf. unfold await, bind, tryCatch, empty. rewrite Hd. reflexivity.
Qed.

(** Past the fetch of a non-empty snapshot: the provider call and the
    extraction. *)
Lemma handler_provider (req : AuthRequest) (u : DecodedIdToken) (snapshot : QuerySnapshot) :
  uid u = mentorId req -> fetched E req = Returned snapshot -> docs snapshot <> [] ->
  let r := genAIRequest (map (incidentText E) (docs snapshot)) in
  let called := [IncidentsGet (mentorId req) (tutorId req); GenerateContentCall r] in
  handler (withUser req u) =
  match generateContent E r with
  | Thrown e => (called ++ [errorLine e], Returned genericFailure)
  | Returned reply =>
      if falsy (text reply)
      then (called ++ [findingLine; errorLine (Error (js "No text response from AI."))],
            Returned genericFailure)
      else
        match extract E (valueOf (text reply)) with
        | Thrown e => (called ++ [findingLine; errorLine e], Returned genericFailure)
        | Returned summaryJson =>
            (called ++ [findingLine; ConsoleLog [LogValue summaryJson]],
             Returned (json 200 summaryJson))
        end
  end.
Proof.
  intros Hu Hf Hd r called. apply uidDiffers_owner in Hu. unfold fetched in Hf.
  unfold handler, summaryHandlerWith. cbn [user mentorId tutorId withUser].
  rewrite Hu, Hf. unfold await, bind, tryCatch, empty.
  destruct (docs snapshot) as [|d ds] eqn:Eds; [contradiction|].
  fold r. destruct (generateContent E r) as [reply|e]; [|reflexivity].
  destruct (falsy (text reply)); [reflexivity|].
  unfold lift. destruct (extract E (valueOf (text reply))); reflexivity.
Qed.

(** The response of a request that reaches the provider. *)
Lemma route_answers (req : AuthRequest) (reply : Outcome GenerateContentResponse) :
  answers genAIRequest E req reply ->
  outcome (route req) =
  match reply with
  | Thrown e => Returned genericFailure
  | Returned r =>
      if falsy (text r) then Returned genericFailure
      else
        match extract E (valueOf (text r)) with
        | Thrown e => Returned genericFailure
        | Returned summaryJson => Returned (json 200 summaryJson)
        end
  end.
Proof.
  intros ((u & Hv & Hu) & snapshot & Hf & Hd & Hr).
  destruct (route_accepted req u Hv) as [t ->]. cbn [outcome snd].
  rewrite (handler_provider req u snapshot Hu Hf Hd). cbv zeta. rewrite Hr.
  destruct reply as [r|e]; [|reflexivity].
  destruct (falsy (text r)); [reflexivity|].
  destruct (extract E (valueOf (text r))); reflexivity.
Qed.

(** Every failure after authorization ends in the generic failure
    response, and its reason is logged. *)
Lemma route_failure (req : AuthRequest) (e : Exn) :
  failure genAIRequest E req e ->
  outcome (route req) = Returned genericFailure /\ In (errorLine e) (trace (route req)).
Proof.
  intros H. destruct H as [e (u & Hv & Hu) Hf | e Ha | reply Ha Hn | reply e Ha Hn He].
  - destruct (route_accepted req u Hv) as [t ->]. cbn [outcome trace fst snd].
    rewrite (handler_store_fails req u e Hu Hf). split; [reflexivity | cbn; tauto].
  - split; [now rewrite (route_answers req _ Ha)|].
    destruct Ha as ((u & Hv & Hu) & snapshot & Hf & Hd & Hr).
    destruct (route_accepted req u Hv) as [t ->]. cbn [trace fst].
    rewrite (handler_provider req u snapshot Hu Hf Hd). cbv zeta. rewrite Hr. cbn; tauto.
  - split; [now rewrite (route_answers req _ Ha), Hn|].
    destruct Ha as ((u & Hv & Hu) & snapshot & Hf & Hd & Hr).
    destruct (route_accepted req u Hv) as [t ->]. cbn [trace fst].
    rewrite (handler_provider req u snapshot Hu Hf Hd). cbv zeta. rewrite Hr, Hn. cbn; tauto.
  - split; [now rewrite (route_answers req _ Ha), Hn, He|].
    destruct Ha as ((u & Hv & Hu) & snapshot & Hf & Hd & Hr).
    destruct (route_accepted req u Hv) as [t ->]. cbn [trace fst].
    rewrite (handler_provider req u snapshot Hu Hf Hd). cbv zeta. rewrite Hr, Hn, He. cbn; tauto.
Qed.

End Pipeline.

(** ** The summary route: authorization, short circuit, failures *)

Lemma no_call_in_empty_run (emptyResult : JSON)
      (genAIRequest : list JSString -> GenerateContentParameters)
      (E : Env) (req : AuthRequest) (snapshot : QuerySnapshot) :
  authorised E req -> fetched E req = Returned snapshot -> docs snapshot = [] ->
  outcome (routeWith emptyResult genAIRequest E req) = Returned (json 200 emptyResult)
  /\ existsb isProviderCall (trace (routeWith emptyResult genAIRequest E req)) = false.
Proof.
  intros (u & Hv & Hu) Hf Hd.
  destruct (route_accepted emptyResult genAIRequest E req u Hv) as [t ->].
  rewrite (handler_empty emptyResult genAIRequest E req u snapshot Hu Hf Hd).
  split; reflexivity.
Qed.

(** C2. A request whose fetched incident sequence has length 0 is answered
    at once with the canned empty result of its variant (an empty scores
    object in [backend/src], empty patterns and suggestions arrays in
    [backend/api]), and the run holds no call of the AI provider. *)
Theorem empty_snapshot_short_circuits
        (E : Env) (req : AuthRequest) (snapshot : QuerySnapshot) :
  authorised E req ->
  fetched E req = Returned snapshot ->
  length (docs snapshot) = 0%nat ->
  (outcome (Src.route E req)
   = Returned (json 200 (JObject [(js "summary", JString (js "No incidents to summarize yet."));
                                  (js "scores", JObject [])]))
   /\ existsb isProviderCall (trace (Src.route E req)) = false)
  /\
  (outcome (Api.route E req)
   = Returned (json 200 (JObject [(js "summary", JString (js "No incidents to summarize yet."));
                                  (js "patterns", JArray []);
                                  (js "suggestions", JArray [])]))
   /\ existsb isProviderCall (trace (Api.route E req)) = false).
Proof.
  intros Ha Hf Hl. apply length_zero_iff_nil in Hl.
  rewrite Src_route_generic, Api_route_generic. split.
  - exact (no_call_in_empty_run Src.emptyResult Src.genAIRequest E req snapshot Ha Hf Hl).
  - exact (no_call_in_empty_run Api.emptyResult Api.genAIRequest E req snapshot Ha Hf Hl).
Qed.

Lemma empty_snapshot_short_circuits_witness :
  authorised Sample.emptyStore Sample.owner
  /\ outcome (Src.route Sample.emptyStore Sample.owner) = Returned (json 200 Src.emptyResult)
  /\ existsb isProviderCall (trace (Src.route Sample.emptyStore Sample.owner)) = false.
Proof.
  assert (Ha : authorised Sample.emptyStore Sample.owner).
  { exists {| uid := js "m1" |}. split; reflexivity. }
  split; [exact Ha|].
  exact (proj1 (empty_snapshot_short_circuits
                  Sample.emptyStore Sample.owner {| docs := [] |}
                  Ha eq_refl eq_refl)).
Defined.

Lemma foreign_owner_run (emptyResult : JSON)
      (genAIRequest : list JSString -> GenerateContentParameters)
      (E : Env) (req : AuthRequest) (u : DecodedIdToken) :
  verification E req = Some (Returned u) -> uid u <> mentorId req ->
  outcome (routeWith emptyResult genAIRequest E req) = Returned forbidden
  /\ existsb isStoreCall (trace (routeWith emptyResult genAIRequest E req)) = false
  /\ existsb isProviderCall (trace (routeWith emptyResult genAIRequest E req)) = false.
Proof.
  intros Hv Hu.
  destruct (route_accepted emptyResult genAIRequest E req u Hv) as [t ->].
  rewrite (handler_foreign emptyResult genAIRequest E req u Hu).
  repeat split; reflexivity.
Qed.

(** C4. A request whose verified caller identity differs from the owner
    named in the path is answered 403, whatever the store and the provider
    would do: neither of them is called. *)
Theorem foreign_owner_is_forbidden (E : Env) (req : AuthRequest) (u : DecodedIdToken) :
  verification E req = Some (Returned u) ->
  uid u <> mentorId req ->
  status forbidden = 403
  /\ (outcome (Src.route E req) = Returned forbidden
      /\ existsb isStoreCall (trace (Src.route E req)) = false
      /\ existsb isProviderCall (trace (Src.route E req)) = false)
  /\ (outcome (Api.route E req) = Returned forbidden
      /\ existsb isStoreCall (trace (Api.route E req)) = false
      /\ existsb isProviderCall (trace (Api.route E req)) = false).
Proof.
  intros Hv Hu. rewrite Src_route_generic, Api_route_generic.
  split; [reflexivity|]. split.
  - exact (foreign_owner_run Src.emptyResult Src.genAIRequest E req u Hv Hu).
  - exact (foreign_owner_run Api.emptyResult Api.genAIRequest E req u Hv Hu).
Qed.

Lemma foreign_owner_is_forbidden_witness :
  outcome (Src.route (Sample.answering Sample.okText) Sample.stranger) = Returned forbidden
  /\ outcome (Api.route Sample.storeDown Sample.stranger) = Returned forbidden.
Proof.
  assert (Hne : js "m1" <> js "m2") by discriminate.
  split.
  - exact (proj1 (proj1 (proj2 (foreign_owner_is_forbidden
                                  (Sample.answering Sample.okText) Sample.stranger
                                  {| uid := js "m1" |} eq_refl Hne)))).
  - exact (proj1 (proj2 (proj2 (foreign_owner_is_forbidden
                                  Sample.storeDown Sample.stranger
                                  {| uid := js "m1" |} eq_refl Hne)))).
Defined.

(** C7. Without an Authorization header, or with one that does not start
    with the bearer prefix, the answer is 401 and the run is empty: the
    token verifier is not invoked. With the prefix, a header always yields
    a token to verify, and when that verification fails the answer is 403. *)
Theorem unauthenticated_requests (E : Env) (req : AuthRequest) :
  status unauthorized = 401 /\ status invalidToken = 403
  /\ ((authorization req = None
       \/ exists h, authorization req = Some h /\ startsWith h (js "Bearer ") = false) ->
      (Src.route E req = ([], Returned unauthorized)
       /\ existsb isVerifierCall (trace (Src.route E req)) = false)
      /\ (Api.route E req = ([], Returned unauthorized)
          /\ existsb isVerifierCall (trace (Api.route E req)) = false))
  /\ (forall h, authorization req = Some h -> startsWith h (js "Bearer ") = true ->
      (exists o, verification E req = Some o)
      /\ forall e, verification E req = Some (Thrown e) ->
           outcome (Src.route E req) = Returned invalidToken
           /\ outcome (Api.route E req) = Returned invalidToken).
Proof.
  split; [reflexivity|]. split; [reflexivity|]. split.
  - intros H. apply hasBearer_false in H.
    rewrite Src_route_generic, Api_route_generic.
    rewrite !route_no_bearer by assumption. repeat split; reflexivity.
  - intros h Hh Hs. split.
    + apply verification_total. rewrite Hh. unfold hasBearer. cbn [valueOf].
      rewrite Hs. destruct h; [discriminate | reflexivity].
    + intros e He. rewrite Src_route_generic, Api_route_generic. split.
      * destruct (route_rejected Src.emptyResult Src.genAIRequest E req e He) as [t ->].
        reflexivity.
      * destruct (route_rejected Api.emptyResult Api.genAIRequest E req e He) as [t ->].
        reflexivity.
Qed.

Lemma unauthenticated_requests_witness :
  Src.route Sample.emptyStore Sample.anonymous = ([], Returned unauthorized)
  /\ outcome (Api.route Sample.emptyStore Sample.forged) = Returned invalidToken.
Proof.
  split.
  - exact (proj1 (proj1 (proj1 (proj2 (proj2 (unauthenticated_requests
                                                Sample.emptyStore Sample.anonymous)))
                               (or_introl eq_refl)))).
  - exact (proj2 (proj2 (proj2 (proj2 (proj2 (unauthenticated_requests
                                                Sample.emptyStore Sample.forged)))
                                      (js "Bearer forged") eq_refl eq_refl)
                        (Rejection (js "Decoding Firebase ID token failed")) eq_refl)).
Defined.

(** C5. Every failure after authorization (the store read throws, the
    provider call throws or returns no text, the extraction fails) is
    answered with status 500 and the one fixed body, which holds nothing of
    the exception; the exception itself goes to the log. *)
Theorem failures_yield_generic_500 (E : Env) (req : AuthRequest) (e : Exn) :
  genericFailure = json 500 (JObject [(js "message", JString (js "Something wrong happened"))])
  /\ (failure Src.genAIRequest E req e ->
      outcome (Src.route E req) = Returned genericFailure
      /\ In (errorLine e) (trace (Src.route E req)))
  /\ (failure Api.genAIRequest E req e ->
      outcome (Api.route E req) = Returned genericFailure
      /\ In (errorLine e) (trace (Api.route E req))).
Proof.
  split; [reflexivity|]. rewrite Src_route_generic, Api_route_generic.
  split; apply route_failure.
Qed.

Lemma failures_yield_generic_500_witness :
  outcome (Src.route Sample.providerDown Sample.owner) = Returned genericFailure
  /\ outcome (Api.route Sample.storeDown Sample.owner) = Returned genericFailure.
Proof.
  assert (Ha : forall E, verifyIdToken E = Sample.verifier -> authorised E Sample.owner).
  { intros E HE. exists {| uid := js "m1" |}. split; [|reflexivity].
    unfold verification. cbn. now rewrite HE. }
  split.
  - refine (proj1 (proj1 (proj2 (failures_yield_generic_500
                                   Sample.providerDown Sample.owner
                                   (Rejection (js "503 from the provider: model overloaded"))))
                         _)).
    apply ProviderFailure. split; [now apply Ha|].
    exists {| docs := [Sample.incident1; Sample.incident2] |}.
    repeat split; [discriminate].
  - refine (proj1 (proj2 (proj2 (failures_yield_generic_500
                                   Sample.storeDown Sample.owner
                                   (Rejection (js "UNAVAILABLE: the store cannot be reached"))))
                         _)).
    apply StoreFailure; [now apply Ha | reflexivity].
Defined.

(** ** The extraction step inside the route *)

Lemma braceSpan_nonempty (t sub : JSString) : braceSpan t = Some sub -> falsy (Some t) = false.
Proof. destruct t; [discriminate | reflexivity]. Qed.

Lemma route_returns_parsed (emptyResult : JSON)
      (genAIRequest : list JSString -> GenerateContentParameters)
      (E : Env) (req : AuthRequest) (t sub : JSString) (J : JSON) :
  braceSpan t = Some sub -> JSON_parse E sub = Parsed J ->
  answers genAIRequest E req (Returned {| text := Some t |}) ->
  outcome (routeWith emptyResult genAIRequest E req) = Returned (json 200 J).
Proof.
  intros Hs Hp Ha. rewrite (route_answers emptyResult genAIRequest E req _ Ha).
  cbn [text valueOf]. rewrite (braceSpan_nonempty t sub Hs).
  now rewrite (extract_span E t sub Hs), Hp.
Qed.

Lemma wire_plain : forall v, plain v = true -> wire v = v.
Proof.
  fix IH 1. intros v. destruct v as [ | b | m e | s | l | l | | n ];
    cbn [plain wire]; intros H; try reflexivity; try discriminate H.
  - f_equal. induction l as [|x l IHl]; [reflexivity|].
    cbn [forallb map] in *. apply andb_true_iff in H as [Hx Hl].
    f_equal; [apply IH; exact Hx | apply IHl; exact Hl].
  - f_equal. induction l as [|[k x] l IHl]; [reflexivity|].
    cbn [forallb map fst snd] in *. apply andb_true_iff in H as [Hx Hl].
    f_equal; [f_equal; apply IH; exact Hx | apply IHl; exact Hl].
Qed.

(** C6, amended. When the span from the first opening brace to the last
    closing brace of the provider's text parses as a JSON value [J], the
    response is 200 and its body is [J] as [res.json] writes it, whatever [J]
    is: nothing checks it against the schema of a summary result. The body
    is [J] itself whenever [J] holds no infinity and no negative zero; an
    infinity is sent as null and the negative zero as 0. *)
Theorem parsed_value_is_returned_unvalidated
        (E : Env) (req : AuthRequest) (t sub : JSString) (J : JSON) :
  braceSpan t = Some sub ->
  JSON_parse E sub = Parsed J ->
  (answers Src.genAIRequest E req (Returned {| text := Some t |}) ->
   outcome (Src.route E req) = Returned {| status := 200; body := wire J |})
  /\ (answers Api.genAIRequest E req (Returned {| text := Some t |}) ->
      outcome (Api.route E req) = Returned {| status := 200; body := wire J |})
  /\ (plain J = true -> wire J = J).
Proof.
  intros Hs Hp. rewrite Src_route_generic, Api_route_generic.
  split; [|split].
  - intros Ha. exact (route_returns_parsed _ _ E req t sub J Hs Hp Ha).
  - intros Ha. exact (route_returns_parsed _ _ E req t sub J Hs Hp Ha).
  - apply wire_plain.
Qed.

(** A body that is no summary result: a score of 9 and nothing else. *)
Lemma parsed_value_is_returned_unvalidated_witness :
  outcome (Src.route (Sample.answering (jsq "Sure! {~score~: 9} Done.")) Sample.owner)
  = Returned {| status := 200; body := JObject [(js "score", JNumber 9 0)] |}.
Proof.
  refine (proj1 (parsed_value_is_returned_unvalidated
                   (Sample.answering (jsq "Sure! {~score~: 9} Done.")) Sample.owner
                   (jsq "Sure! {~score~: 9} Done.") (jsq "{~score~: 9}")
                   (JObject [(js "score", JNumber 9 0)]) eq_refl eq_refl) _).
  split.
  - exists {| uid := js "m1" |}. split; reflexivity.
  - exists {| docs := [Sample.incident1; Sample.incident2] |}.
    repeat split; [discriminate].
Defined.

(** C6 as stated fails on a number beyond the range of doubles: the span
    parses as an object whose score is an infinity, the handler logs that
    value, and the body the client receives holds null in its place. *)
Lemma parsed_value_body_counterexample :
  braceSpan (jsq "{~score~:1e400}") = Some (jsq "{~score~:1e400}")
  /\ JSONText.parse (jsq "{~score~:1e400}") = Parsed (JObject [(js "score", JInfinity false)])
  /\ Src.route (Sample.answering (jsq "{~score~:1e400}")) Sample.owner
     = ([VerifyIdTokenCall (js "token-of-m1");
         IncidentsGet (js "m1") (js "t1");
         GenerateContentCall
           (Src.genAIRequest
              (map (incidentText (Sample.answering (jsq "{~score~:1e400}")))
                   [Sample.incident1; Sample.incident2]));
         findingLine;
         ConsoleLog [LogValue (JObject [(js "score", JInfinity false)])]],
        Returned {| status := 200; body := JObject [(js "score", JNull)] |})
  /\ JObject [(js "score", JNull)] <> JObject [(js "score", JInfinity false)].
Proof.
  split; [vm_compute; reflexivity|]. split; [vm_compute; reflexivity|].
  split; [vm_compute; reflexivity | discriminate].
Qed.

(** C10. A text that holds both braces, the last closing one before the
    first opening one, never fails with NoJsonFound: [substring] swaps its
    arguments, the text strictly between the two braces goes to the parser,
    and a parse failure is reported as MalformedJson and reaches the client
    as the generic 500. *)
Theorem reversed_braces_are_malformed_not_missing (E : Env) (t : JSString) :
  includes t LBRACE = true ->
  includes t RBRACE = true ->
  lastIndexOf t [RBRACE] < indexOf t [LBRACE] ->
  substring t (indexOf t [LBRACE]) (lastIndexOf t [RBRACE] + 1) = textBetween t
  /\ extract E t = parseOutcome (JSON_parse E (textBetween t))
  /\ extract E t <> Thrown NoJsonFound
  /\ forall message, JSON_parse E (textBetween t) = SyntaxErrorAt message ->
       extract E t = Thrown (MalformedJson message)
       /\ (forall req, answers Src.genAIRequest E req (Returned {| text := Some t |}) ->
                       outcome (Src.route E req) = Returned genericFailure)
       /\ (forall req, answers Api.genAIRequest E req (Returned {| text := Some t |}) ->
                       outcome (Api.route E req) = Returned genericFailure).
Proof.
  intros Hl Hr Hlt.
  pose proof (indexOf_bounds LBRACE t Hl) as Bi.
  pose proof (lastIndexOf_bounds RBRACE t Hr) as Bj.
  pose proof (extract_reversed E t Hl Hr Hlt) as He. fold (textBetween t) in He.
  split; [apply substring_swapped; lia|]. split; [exact He|]. split.
  - rewrite He. destruct (JSON_parse E (textBetween t)); discriminate.
  - intros message Hm. rewrite Hm in He. cbn [parseOutcome] in He.
    assert (Hf : falsy (Some t) = false) by (destruct t; [discriminate | reflexivity]).
    split; [exact He|]. rewrite Src_route_generic_ext, Api_route_generic_ext.
    split; intros req Ha.
    + rewrite (route_answers _ _ E req _ Ha). cbn [text valueOf]. now rewrite Hf, He.
    + rewrite (route_answers _ _ E req _ Ha). cbn [text valueOf]. now rewrite Hf, He.
Qed.

(** On the two braces alone, the other way round, the text between is empty
    and the parser refuses it. *)
Lemma reversed_braces_are_malformed_not_missing_witness :
  textBetween (js "}{") = []
  /\ extract (Sample.answering (js "}{")) (js "}{")
     = Thrown (MalformedJson (js "Unexpected token or end of JSON input"))
  /\ outcome (Src.route (Sample.answering (js "}{")) Sample.owner) = Returned genericFailure.
Proof.
  assert (Hlt : lastIndexOf (js "}{") [RBRACE] < indexOf (js "}{") [LBRACE])
    by (vm_compute; reflexivity).
  pose proof (reversed_braces_are_malformed_not_missing
                (Sample.answering (js "}{")) (js "}{") eq_refl eq_refl Hlt) as H.
  destruct H as (_ & _ & _ & H).
  destruct (H (js "Unexpected token or end of JSON input") eq_refl) as (He & Hs & _).
  split; [reflexivity|]. split; [exact He|].
  apply Hs. split.
  - exists {| uid := js "m1" |}. split; reflexivity.
  - exists {| docs := [Sample.incident1; Sample.incident2] |}.
    repeat split; [discriminate].
Defined.

(** C1, at the text [}42{]. Both braces are present, there is no span from
    the first opening brace to the last closing one, and yet the extraction
    succeeds: [substring(3, 1)] is [substring(1, 3)], the parser reads 42,
    and the client receives it with status 200. *)
Theorem extract_reversed_braces_returns_between :
  indexOf (js "}42{") [LBRACE] = 3
  /\ lastIndexOf (js "}42{") [RBRACE] = 0
  /\ braceSpan (js "}42{") = None
  /\ substring (js "}42{") 3 (0 + 1) = js "42"
  /\ extract (Sample.answering (js "}42{")) (js "}42{") = Returned (JNumber 42 0)
  /\ outcome (Src.route (Sample.answering (js "}42{")) Sample.owner)
     = Returned (json 200 (JNumber 42 0))
  /\ outcome (Api.route (Sample.answering (js "}42{")) Sample.owner)
     = Returned (json 200 (JNumber 42 0)).
Proof. repeat split; vm_compute; reflexivity. Qed.

(** ** Reading back what [serialize] writes *)

Lemma parseChars_escape_control (c : CodeUnit) (r : JSString) :
  (c <? 32)%N = true ->
  JSONText.parseChars (Serialize.escapeUnit c ++ r)
  = match JSONText.parseChars r with
    | Some (str, rest) => Some (c :: str, rest)
    | None => None
    end.
Proof.
  intros H. destruct c as [|p]; [reflexivity|].
  do 6 (try destruct p as [p|p|]); try discriminate H; reflexivity.
Qed.

Lemma parseChars_escapeUnit (c : CodeUnit) (r : JSString) :
  JSONText.parseChars (Serialize.escapeUnit c ++ r)
  = match JSONText.parseChars r with
    | Some (str, rest) => Some (c :: str, rest)
    | None => None
    end.
Proof.
  destruct (c <? 32)%N eqn:Hlow; [now apply parseChars_escape_control|].
  unfold Serialize.escapeUnit. rewrite Hlow.
  destruct (c =? 34)%N eqn:E1; [apply N.eqb_eq in E1; subst c; reflexivity|].
  destruct (c =? 92)%N eqn:E2; [apply N.eqb_eq in E2; subst c; reflexivity|].
  destruct (c =? 8)%N eqn:E3; [apply N.eqb_eq in E3; subst c; discriminate|].
  destruct (c =? 12)%N eqn:E4; [apply N.eqb_eq in E4; subst c; discriminate|].
  destruct (c =? 10)%N eqn:E5; [apply N.eqb_eq in E5; subst c; discriminate|].
  destruct (c =? 13)%N eqn:E6; [apply N.eqb_eq in E6; subst c; discriminate|].
  destruct (c =? 9)%N eqn:E7; [apply N.eqb_eq in E7; subst c; discriminate|].
  cbn [app JSONText.parseChars]. now rewrite E1, E2, Hlow.
Qed.

Lemma parseChars_quoteBody (s rest : JSString) :
  JSONText.parseChars (Serialize.quoteBody s ++ 34%N :: rest) = Some (s, rest).
Proof.
  induction s as [|c s IH].
  - reflexivity.
  - cbn [Serialize.quoteBody]. rewrite <- app_assoc, parseChars_escapeUnit. now rewrite IH.
Qed.

Lemma parsesTo_weaken (vt : JSString) (v : JSON) (k k' : nat) :
  (k <= k')%nat -> parsesTo vt v k -> parsesTo vt v k'.
Proof.
  intros Hk [Hw Hp]. split; [exact Hw|].
  intros n rest Hn Hd. apply Hp; [lia | exact Hd].
Qed.

Lemma parsesTo_quote (s : JSString) :
  parsesTo (Serialize.quote s) (JString s) 1.
Proof.
  split.
  - intros rest. reflexivity.
  - intros n rest Hn _. destruct n as [|n]; [lia|].
    unfold Serialize.quote. cbn [app JSONText.parseValue].
    change ((34 =? 123)%N) with false. change ((34 =? 91)%N) with false.
    change ((34 =? 34)%N) with true. cbv iota.
    rewrite <- app_assoc. cbn [app]. now rewrite parseChars_quoteBody.
Qed.

Lemma parsesTo_score (z : Z) :
  1 <= z <= 5 -> parsesTo (Serialize.decimal z) (numberOfZ z) 1.
Proof.
  intros Hz.
  assert (Hcases : z = 1 \/ z = 2 \/ z = 3 \/ z = 4 \/ z = 5) by lia.
  split.
  - intros rest. destruct Hcases as [-> | [-> | [-> | [-> | ->]]]]; reflexivity.
  - intros n rest Hn Hd. destruct n as [|n]; [lia|].
    destruct rest as [|c r].
    + destruct Hcases as [-> | [-> | [-> | [-> | ->]]]]; reflexivity.
    + cbn [delimited] in Hd. rewrite !orb_true_iff, !N.eqb_eq in Hd.
      destruct Hd as [[-> | ->] | ->];
        destruct Hcases as [-> | [-> | [-> | [-> | ->]]]]; reflexivity.
Qed.

Lemma join_cons (a b : JSString) (l : list JSString) (sep : JSString) :
  join (a :: b :: l) sep = a ++ sep ++ join (b :: l) sep.
Proof. reflexivity. Qed.

(** A non-empty run of members begins with the quote of its first name. *)
Lemma members_head (ms : list (JSString * JSString)) (x : JSString) :
  ms <> [] ->
  exists tl,
    join (map (fun m => Serialize.memberText (fst m) (snd m)) ms) [44%N] ++ x = 34%N :: tl.
Proof.
  destruct ms as [|m [|m2 ms]]; [contradiction | |]; intros _;
    cbn [map join]; unfold Serialize.memberText at 1, Serialize.quote at 1;
    cbn [app]; eauto.
Qed.

Lemma parseMembers_members (k : nat) (ms : list (JSString * JSString * JSON)) :
  ms <> [] ->
  Forall (fun m => parsesTo (snd (fst m)) (snd m) k) ms ->
  forall n acc rest, (k + length ms <= n)%nat ->
    JSONText.parseMembers
      n
      (join (map (fun m => Serialize.memberText (fst m) (snd m)) (map fst ms)) [44%N]
            ++ RBRACE :: rest)
      acc
    = Some (JObject (fold_left (fun a m => JSONText.setProperty a (fst (fst m)) (snd m)) ms acc),
            rest).
Proof.
  induction ms as [|[[name vt] v] ms IH]; [contradiction|].
  intros _ HF n acc rest Hn. inversion HF as [|m l [Hw Hp] HF']. subst m l.
  cbn [fst snd] in Hw, Hp. cbn [length] in Hn.
  destruct n as [|n]; [lia|].
  assert (Hstep : forall tail, delimited tail = true ->
            JSONText.parseMembers (S n) (Serialize.memberText name vt ++ tail) acc
            = match JSONText.skipWs tail with
              | d :: r' =>
                  if (d =? 44)%N
                  then JSONText.parseMembers n (JSONText.skipWs r')
                                             (JSONText.setProperty acc name v)
                  else if (d =? 125)%N
                       then Some (JObject (JSONText.setProperty acc name v), r')
                       else None
              | [] => None
              end).
  { intros tail Hd. unfold Serialize.memberText, Serialize.quote.
    cbn [app JSONText.parseMembers]. change ((34 =? 34)%N) with true. cbv iota.
    rewrite <- !app_assoc. cbn [app]. rewrite parseChars_quoteBody.
    cbn [JSONText.skipWs]. change (JSONText.isWhitespace 58%N) with false. cbv iota.
    change ((58 =? 58)%N) with true. cbv iota.
    rewrite Hw, Hp by (assumption || lia). reflexivity. }
  destruct ms as [|m2 ms'].
  - cbn [map join fst snd fold_left]. rewrite Hstep by reflexivity. reflexivity.
  - cbn [map fst snd fold_left]. rewrite join_cons.
    rewrite <- !app_assoc. rewrite Hstep by reflexivity.
    cbn [app JSONText.skipWs]. change (JSONText.isWhitespace 44%N) with false. cbv iota.
    change ((44 =? 44)%N) with true. cbv iota.
    destruct (members_head (map fst (m2 :: ms')) (RBRACE :: rest)) as [tl Htl];
      [discriminate|].
    cbn [map] in Htl. rewrite Htl. cbn [JSONText.skipWs].
    change (JSONText.isWhitespace 34%N) with false. cbv iota. rewrite <- Htl.
    apply (IH ltac:(discriminate) HF'). cbn [length] in *. lia.
Qed.

Lemma parsesTo_object (k : nat) (ms : list (JSString * JSString * JSON)) :
  ms <> [] ->
  Forall (fun m => parsesTo (snd (fst m)) (snd m) k) ms ->
  parsesTo (Serialize.objectText (map fst ms))
           (JObject (fold_left (fun a m => JSONText.setProperty a (fst (fst m)) (snd m)) ms []))
           (S (k + length ms)).
Proof.
  intros Hne HF.
  destruct (members_head (map fst ms) [RBRACE]) as [tl Htl];
    [destruct ms; [contradiction | discriminate]|].
  split.
  - intros rest. reflexivity.
  - intros n rest Hn _. destruct n as [|n]; [lia|].
    unfold Serialize.objectText. cbn [app JSONText.parseValue].
    change ((LBRACE =? 123)%N) with true. cbv iota.
    rewrite Htl. cbn [app JSONText.skipWs].
    change (JSONText.isWhitespace 34%N) with false. cbv iota.
    change ((34 =? 125)%N) with false. cbv iota.
    change (34%N :: tl ++ rest) with ((34%N :: tl) ++ rest). rewrite <- Htl.
    rewrite <- app_assoc. cbn [app].
    apply (parseMembers_members k); [assumption | assumption | lia].
Qed.

(** A non-empty run of quoted strings begins with a quote. *)
Lemma quoted_head (l : list JSString) (x : JSString) :
  l <> [] -> exists tl, join (map Serialize.quote l) [44%N] ++ x = 34%N :: tl.
Proof.
  destruct l as [|a [|b l]]; [contradiction | |]; intros _;
    cbn [map]; [cbn [join] | rewrite join_cons]; unfold Serialize.quote at 1;
    cbn [app]; eauto.
Qed.

Lemma parseElements_strings (l : list JSString) :
  l <> [] ->
  forall n acc rest, (1 + length l <= n)%nat ->
    JSONText.parseElements n (join (map Serialize.quote l) [44%N] ++ 93%N :: rest) acc
    = Some (JArray (rev acc ++ map JString l), rest).
Proof.
  induction l as [|a l IH]; [contradiction|].
  intros _ n acc rest Hn. cbn [length] in Hn. destruct n as [|n]; [lia|].
  destruct (parsesTo_quote a) as [_ Hp].
  destruct l as [|b l'].
  - cbn [map join JSONText.parseElements].
    rewrite Hp by (reflexivity || lia). cbn [JSONText.skipWs].
    change (JSONText.isWhitespace 93%N) with false. cbv iota.
    change ((93 =? 44)%N) with false. change ((93 =? 93)%N) with true. cbv iota.
    cbn [rev map]. reflexivity.
  - cbn [map]. rewrite join_cons. rewrite <- !app_assoc.
    cbn [JSONText.parseElements]. rewrite Hp by (reflexivity || cbn [length] in *; lia).
    cbn [app JSONText.skipWs]. change (JSONText.isWhitespace 44%N) with false. cbv iota.
    change ((44 =? 44)%N) with true. cbv iota.
    destruct (quoted_head (b :: l') (93%N :: rest)) as [tl Htl]; [discriminate|].
    cbn [map] in Htl. rewrite Htl. cbn [JSONText.skipWs].
    change (JSONText.isWhitespace 34%N) with false. cbv iota. rewrite <- Htl.
    change (Serialize.quote b :: map Serialize.quote l') with (map Serialize.quote (b :: l')).
    rewrite (IH ltac:(discriminate)) by (cbn [length] in *; lia).
    cbn [rev map]. now rewrite <- app_assoc.
Qed.

Lemma parsesTo_array (l : list JSString) :
  parsesTo (Serialize.arrayText (map Serialize.quote l)) (JArray (map JString l))
           (2 + length l).
Proof.
  split; [intros rest; reflexivity|].
  intros n rest Hn _. destruct n as [|n]; [lia|].
  unfold Serialize.arrayText. cbn [app JSONText.parseValue].
  change ((91 =? 123)%N) with false. change ((91 =? 91)%N) with true. cbv iota.
  destruct l as [|a l].
  - reflexivity.
  - destruct (quoted_head (a :: l) [93%N]) as [tl Htl]; [discriminate|].
    rewrite Htl. cbn [app JSONText.skipWs].
    change (JSONText.isWhitespace 34%N) with false. cbv iota.
    change ((34 =? 93)%N) with false. cbv iota.
    change (34%N :: tl ++ rest) with ((34%N :: tl) ++ rest). rewrite <- Htl.
    rewrite <- app_assoc. cbn [app].
    rewrite parseElements_strings by (discriminate || (cbn [length] in *; lia)).
    reflexivity.
Qed.

Ltac each_member :=
  repeat (apply Forall_cons; [cbn [fst snd] | ]); try apply Forall_nil.

Lemma parsesTo_scoreText (sc : ScoreCriterion) :
  1 <= score sc <= 5 -> parsesTo (Serialize.scoreText sc) (scoreJSON sc) 4.
Proof.
  intros Hs.
  apply (parsesTo_object 1
           [(js "score", Serialize.decimal (score sc), numberOfZ (score sc));
            (js "justification", Serialize.quote (justification sc),
             JString (justification sc))]).
  - discriminate.
  - each_member; [now apply parsesTo_score | apply parsesTo_quote].
Qed.

Lemma criteria_complete (c : Criterion) : In c criteria.
Proof. destruct c; cbn; tauto. Qed.

Lemma quoted_length (l : list JSString) :
  (length l <= length (join (map Serialize.quote l) [44%N]))%nat.
Proof.
  induction l as [|a l IH]; [cbn; lia|].
  destruct l as [|b l].
  - cbn [map join]. unfold Serialize.quote. cbn [length]. lia.
  - cbn [map] in *. rewrite join_cons, !length_app. cbn [length] in *. lia.
Qed.

(** The fuel that reads a serialized result back. *)
Lemma parsesTo_serialize (x : SummaryResult) :
  valid x = true ->
  exists k, parsesTo (Serialize.serialize x) (toJSON x) k
            /\ (k <= S (length (Serialize.serialize x)))%nat.
Proof.
  intros Hv. destruct x as [s f | s ps gs].
  - exists 15%nat. split.
    + assert (Hscores : forall c, parsesTo (Serialize.scoreText (f c)) (scoreJSON (f c)) 4).
      { intros c. apply parsesTo_scoreText.
        cbn [valid] in Hv. rewrite forallb_forall in Hv.
        specialize (Hv c (criteria_complete c)). lia. }
      pose proof (parsesTo_object 4
                    (map (fun c => (criterionName c, Serialize.scoreText (f c), scoreJSON (f c)))
                         criteria)
                    ltac:(discriminate)) as Hinner.
      cbn [length map criteria] in Hinner.
      specialize (Hinner ltac:(each_member; apply Hscores)).
      apply (parsesTo_object 12
               [(js "summary", Serialize.quote s, JString s);
                (js "scores",
                 Serialize.objectText
                   (map (fun c => (criterionName c, Serialize.scoreText (f c))) criteria),
                 JObject (map (fun c => (criterionName c, scoreJSON (f c))) criteria))]).
      * discriminate.
      * each_member.
        -- apply parsesTo_weaken with (k := 1%nat); [lia | apply parsesTo_quote].
        -- exact Hinner.
    + cbn [Serialize.serialize]. unfold Serialize.objectText at 1.
      cbn [map join fst snd]. unfold Serialize.memberText at 1.
      cbn [length]. rewrite !length_app. cbn. lia.
  - exists (S (2 + length ps + length gs + 3)). split.
    + apply (parsesTo_object (2 + length ps + length gs)
               [(js "summary", Serialize.quote s, JString s);
                (js "patterns", Serialize.arrayText (map Serialize.quote ps),
                 JArray (map JString ps));
                (js "suggestions", Serialize.arrayText (map Serialize.quote gs),
                 JArray (map JString gs))]).
      * discriminate.
      * each_member.
        -- apply parsesTo_weaken with (k := 1%nat); [lia | apply parsesTo_quote].
        -- apply parsesTo_weaken with (k := (2 + length ps)%nat); [lia | apply parsesTo_array].
        -- apply parsesTo_weaken with (k := (2 + length gs)%nat); [lia | apply parsesTo_array].
    + pose proof (quoted_length ps) as Hps. pose proof (quoted_length gs) as Hgs.
      cbn [Serialize.serialize]. unfold Serialize.objectText, Serialize.arrayText.
      cbn [map fst snd]. rewrite !join_cons. unfold Serialize.memberText.
      cbn [join length]. unfold JSString, CodeUnit in *.
      repeat (rewrite length_app || cbn [length]). lia.
Qed.

(** The parser reads the serialization of a valid result back as the
    result. *)
Lemma parse_serialize (x : SummaryResult) :
  valid x = true -> JSONText.parse (Serialize.serialize x) = Parsed (toJSON x).
Proof.
  intros Hv. destruct (parsesTo_serialize x Hv) as (k & [Hw Hp] & Hk).
  unfold JSONText.parse.
  specialize (Hw []). specialize (Hp (S (length (Serialize.serialize x))) [] Hk eq_refl).
  rewrite app_nil_r in Hw, Hp. now rewrite Hw, Hp.
Qed.

Lemma serialize_braces (x : SummaryResult) :
  exists inner, Serialize.serialize x = LBRACE :: inner ++ [RBRACE].
Proof. destruct x; eexists; reflexivity. Qed.

Lemma serialize_serializes (E : Env) (x : SummaryResult) :
  JSON_parse E = JSONText.parse -> valid x = true ->
  serializes E (Serialize.serialize x) (toJSON x).
Proof.
  intros HE Hv. split; [apply serialize_braces|].
  rewrite HE. now apply parse_serialize.
Qed.

(** ** The end-to-end scenarios of section 8 *)

Example scenario_prose_around_json :
  extract Sample.emptyStore
          (js "Here you go:" ++ [10%N] ++ Sample.okText ++ [10%N] ++ js "Thanks")
  = Returned (JObject [(js "summary", JString (js "ok")); (js "scores", JObject [])]).
Proof. vm_compute. reflexivity. Qed.

Example scenario_not_json :
  extract (Sample.answering (js "not json at all")) (js "not json at all")
  = Thrown NoJsonFound
  /\ outcome (Src.route (Sample.answering (js "not json at all")) Sample.owner)
     = Returned genericFailure.
Proof. split; vm_compute; reflexivity. Qed.

Example scenario_first_fetch_date :
  incidentText Sample.emptyStore Sample.incident1
  = js "2023-11-14T22:13:20.000Z: Arrived late to the session".
Proof. vm_compute. reflexivity. Qed.

(** ** Round trip *)

Example serialize_neutral : Serialize.serialize Sample.neutralResult = Sample.neutralText.
Proof. vm_compute. reflexivity. Qed.

(** C3, amended. The serialization of a summary result, set after a prefix
    that holds no opening brace and before a suffix that holds no closing
    brace, is extracted back to the value it serializes. This holds for any
    parser and any text that serializes the value; with the parser of the
    platform, the compact text of every valid result is such a text. *)
Theorem extract_roundtrip_embedded
        (E : Env) (x : SummaryResult) (prefix suffix : JSString) :
  includes prefix LBRACE = false ->
  includes suffix RBRACE = false ->
  (forall s, serializes E s (toJSON x) ->
             extract E (prefix ++ s ++ suffix) = Returned (toJSON x))
  /\ (JSON_parse E = JSONText.parse -> valid x = true ->
      serializes E (Serialize.serialize x) (toJSON x)
      /\ extract E (prefix ++ Serialize.serialize x ++ suffix) = Returned (toJSON x)).
Proof.
  intros Hpre Hsuf.
  assert (Hany : forall s, serializes E s (toJSON x) ->
                           extract E (prefix ++ s ++ suffix) = Returned (toJSON x)).
  { intros s [[inner ->] Hp].
    rewrite (extract_span E _ _ (braceSpan_embedded prefix inner suffix Hpre Hsuf)).
    now rewrite Hp. }
  split; [exact Hany|].
  intros HE Hv. pose proof (serialize_serializes E x HE Hv) as Hs.
  split; [exact Hs | now apply Hany].
Qed.

Lemma extract_roundtrip_embedded_witness :
  extract Sample.emptyStore
          (js "Here you go: " ++ Serialize.serialize Sample.neutralResult ++ js " Thanks")
  = Returned (toJSON Sample.neutralResult).
Proof.
  exact (proj2 (proj2 (extract_roundtrip_embedded
                         Sample.emptyStore Sample.neutralResult
                         (js "Here you go: ") (js " Thanks") eq_refl eq_refl)
                      eq_refl eq_refl)).
Defined.

(** C3 as stated fails: a valid summary result, its serialization, and a
    prefix or a suffix that holds a brace of its own. *)
Lemma extract_roundtrip_counterexample :
  valid Sample.neutralResult = true
  /\ serializes Sample.emptyStore (Serialize.serialize Sample.neutralResult)
                (toJSON Sample.neutralResult)
  /\ extract Sample.emptyStore
             (js "{draft} " ++ Serialize.serialize Sample.neutralResult ++ js " Thanks")
     = Thrown (MalformedJson (js "Unexpected token or end of JSON input"))
  /\ extract Sample.emptyStore
             (js "Here you go: " ++ Serialize.serialize Sample.neutralResult ++ js " :-}")
     = Thrown (MalformedJson (js "Unexpected non-whitespace character after JSON")).
Proof.
  split; [reflexivity|].
  split; [exact (serialize_serializes Sample.emptyStore Sample.neutralResult eq_refl eq_refl)|].
  split; vm_compute; reflexivity.
Qed.

(** ** The prompt *)

(** C8, amended. In both files an incident is rendered as its ISO-8601
    timestamp, or the words unknown date when it has no date, then a colon,
    a space and its description; the rendered incidents are joined by
    newlines and set at the end of a fixed template. Both templates forbid
    summaries per incident and ask for an analysis of the whole. The
    template of [backend/src] states the scores schema verbatim, names each
    of the seven criteria and gives the 1-5 scale with its neutral default;
    the template of [backend/api] states the patterns schema instead and
    names no criterion and no scale. *)
Theorem prompt_contents (E : Env) (incidents : list DocumentData) :
  (forall d t, date d = Some t ->
               incidentText E d = toISOString E t ++ js ": " ++ description d)
  /\ (forall d, date d = None ->
                incidentText E d = js "unknown date: " ++ description d)
  /\ Src.prompt (map (incidentText E) incidents)
     = Src.promptHead ++ join (map (incidentText E) incidents) [10%N] ++ [10%N]
  /\ Api.prompt (map (incidentText E) incidents)
     = Api.promptHead ++ join (map (incidentText E) incidents) [10%N] ++ [10%N]
  /\ (containsText Src.promptHead (js "Do NOT summarize each incident individually.") = true
      /\ containsText Src.promptHead (js "Analyze ALL incidents AS A WHOLE.") = true
      /\ containsText Src.promptHead scoresSchemaText = true
      /\ forallb (fun c => containsText scoresSchemaText (criterionName c)) criteria = true
      /\ containsText Src.promptHead (js "Use a 1-5 scale:") = true
      /\ containsText Src.promptHead neutralRuleText = true)
  /\ (containsText Api.promptHead (js "You MUST NOT summarize each incident individually.") = true
      /\ containsText Api.promptHead (js "Analyze ALL incidents AS A WHOLE.") = true
      /\ containsText Api.promptHead patternsSchemaText = true
      /\ existsb (fun c => containsText Api.promptHead (criterionName c)) criteria = false
      /\ containsText Api.promptHead (js "1-5") = false
      /\ containsText Api.promptHead neutralRuleText = false).
Proof.
  split; [intros d t Hd; unfold incidentText; now rewrite Hd|].
  split; [intros d Hd; unfold incidentText; now rewrite Hd|].
  split; [reflexivity|]. split; [reflexivity|].
  split; repeat split; vm_compute; reflexivity.
Qed.

(** C8 as stated fails on the template of [backend/api]: the prompt built
    for two incidents names none of the seven criteria and holds no rule of
    a neutral default. *)
Lemma prompt_contents_counterexample :
  existsb (fun c =>
             containsText
               (Api.prompt (map (incidentText Sample.emptyStore)
                                [Sample.incident1; Sample.incident2]))
               (criterionName c))
          criteria = false
  /\ containsText
       (Api.prompt (map (incidentText Sample.emptyStore)
                        [Sample.incident1; Sample.incident2]))
       neutralRuleText = false
  /\ join (map (incidentText Sample.emptyStore) [Sample.incident1; Sample.incident2]) [10%N]
     = js "2023-11-14T22:13:20.000Z: Arrived late to the session" ++ [10%N]
          ++ js "unknown date: Proposed a new exercise format".
Proof. repeat split; vm_compute; reflexivity. Qed.

(** ** The two variants side by side *)

Lemma verifyToken_inr (E : Env) (req req' : AuthRequest) (tr : list Event) :
  verifyToken E req = (tr, Returned (inr req')) ->
  exists u, verification E req = Some (Returned u) /\ req' = withUser req u.
Proof.
  unfold verifyToken, verification, hasBearer, idTokenOf.
  destruct (falsy (authorization req)
            || negb (startsWith (valueOf (authorization req)) (js "Bearer ")));
    cbn [negb]; [discriminate|].
  destruct (nth_error (split (valueOf (authorization req)) (js "Bearer ")) 1) as [t|].
  - cbn. destruct (verifyIdToken E t) as [u|e]; cbn; [|discriminate].
    intros H. injection H as _ <-. now exists u.
  - cbn. discriminate.
Qed.




(** * Further properties of the route *)

(** ** Every run has one of nine shapes *)

Lemma verification_token (E : Env) (req : AuthRequest) (o : Outcome DecodedIdToken) :
  verification E req = Some o ->
  exists t, idTokenOf (authorization req) = Some t /\ verifyIdToken E t = o.
Proof.
  unfold verification. destruct (hasBearer (authorization req)); [|discriminate].
  destruct (idTokenOf (authorization req)) as [t|]; [|discriminate].
  intros H. injection H as H. now exists t.
Qed.

Lemma verifyToken_trace (E : Env) (req : AuthRequest) (t : JSString) :
  hasBearer (authorization req) = true ->
  idTokenOf (authorization req) = Some t ->
  verifyToken E req =
  match verifyIdToken E t with
  | Returned u => ([VerifyIdTokenCall t], Returned (inr (withUser req u)))
  | Thrown e => ([VerifyIdTokenCall t; tokenErrorLine e], Returned (inl invalidToken))
  end.
Proof.
  unfold hasBearer, idTokenOf, verifyToken. rewrite negb_true_iff. intros -> ->.
  cbn. destruct (verifyIdToken E t); reflexivity.
Qed.

Lemma routeWith_runs (emptyResult : JSON)
      (genAIRequest : list JSString -> GenerateContentParameters)
      (E : Env) (req : AuthRequest) :
  runs emptyResult genAIRequest E req (routeWith emptyResult genAIRequest E req).
Proof.
  destruct (hasBearer (authorization req)) eqn:Hb.
  2: { rewrite route_no_bearer by assumption. now constructor. }
  destruct (verification_total E req Hb) as [o Ho].
  destruct (verification_token E req o Ho) as (t & Ht & Hvt).
  unfold routeWith. rewrite (verifyToken_trace E req t Hb Ht), Hvt.
  destruct o as [u | e].
  2: { cbn. now apply RunInvalidToken. }
  unfold bind at 1.
  assert (Hdec : uid u = mentorId req \/ uid u <> mentorId req).
  { destruct (str_eqb (uid u) (mentorId req)) eqn:Hq.
    - left. now apply str_eqb_eq.
    - right. intros Heq. apply str_eqb_eq in Heq. congruence. }
  destruct Hdec as [Hu | Hu].
  2: { rewrite (handler_foreign emptyResult genAIRequest E req u Hu).
       cbn. now apply RunForeignOwner with (u := u). }
  assert (Ha : authorised E req) by (now exists u).
  destruct (fetched E req) as [snapshot | e] eqn:Hf.
  2: { rewrite (handler_store_fails emptyResult genAIRequest E req u e Hu Hf).
       cbn. now apply RunStoreFailure. }
  destruct (docs snapshot) as [|d ds] eqn:Hd.
  { rewrite (handler_empty emptyResult genAIRequest E req u snapshot Hu Hf Hd).
    cbn. now apply RunEmpty with (snapshot := snapshot). }
  assert (Hne : docs snapshot <> []) by (rewrite Hd; discriminate).
  rewrite (handler_provider emptyResult genAIRequest E req u snapshot Hu Hf Hne).
  cbv zeta.
  destruct (generateContent E (genAIRequest (map (incidentText E) (docs snapshot))))
    as [reply | e] eqn:Hg.
  2: { cbn. now apply RunProviderFailure. }
  destruct (falsy (text reply)) eqn:Hn.
  { cbn. now apply RunNoText with (reply := reply). }
  destruct (extract E (valueOf (text reply))) as [J | e] eqn:He.
  - cbn. now apply RunSummary with (reply := reply).
  - cbn. now apply RunExtractionFailure with (reply := reply).
Qed.

Lemma runs_returns (emptyResult : JSON)
      (genAIRequest : list JSString -> GenerateContentParameters)
      (E : Env) (req : AuthRequest) (m : M Response) :
  runs emptyResult genAIRequest E req m ->
  exists r, outcome m = Returned r
            /\ (status r = 200 \/ status r = 401 \/ status r = 403 \/ status r = 500).
Proof.
  intros H. destruct H; eexists; (split; [reflexivity | cbn; tauto]).
Qed.

(** X1. Whatever the verifier, the store and the provider do, both routes
    answer: no exception leaves the route, and the status sent is 200, 401,
    403 or 500. *)
Theorem route_always_answers (E : Env) (req : AuthRequest) :
  (exists r, outcome (Src.route E req) = Returned r
             /\ (status r = 200 \/ status r = 401 \/ status r = 403 \/ status r = 500))
  /\ (exists r, outcome (Api.route E req) = Returned r
                /\ (status r = 200 \/ status r = 401 \/ status r = 403 \/ status r = 500)).
Proof.
  rewrite Src_route_generic, Api_route_generic.
  split; eapply runs_returns; apply routeWith_runs.
Qed.

Lemma runs_calls (emptyResult : JSON)
      (genAIRequest : list JSString -> GenerateContentParameters)
      (E : Env) (req : AuthRequest) (m : M Response) :
  runs emptyResult genAIRequest E req m ->
  exists t r n,
    calls (trace m)
    = firstn n [VerifyIdTokenCall t;
                IncidentsGet (mentorId req) (tutorId req);
                GenerateContentCall r].
Proof.
  intros H. destruct H.
  - exists [], (genAIRequest []), 0%nat. reflexivity.
  - exists t, (genAIRequest []), 1%nat. reflexivity.
  - exists t, (genAIRequest []), 1%nat. reflexivity.
  - exists t, (genAIRequest []), 2%nat. reflexivity.
  - exists t, (genAIRequest []), 2%nat. reflexivity.
  - eexists t, _, 3%nat. reflexivity.
  - eexists t, _, 3%nat. reflexivity.
  - eexists t, _, 3%nat. reflexivity.
  - eexists t, _, 3%nat. reflexivity.
Qed.

(** X2. The collaborators are called in one order and at most once each:
    the calls of a run are an initial part of the sequence verifier, store
    read for the path of the request, provider. *)
Theorem calls_in_order_at_most_once (E : Env) (req : AuthRequest) :
  (exists t r n,
      calls (trace (Src.route E req))
      = firstn n [VerifyIdTokenCall t;
                  IncidentsGet (mentorId req) (tutorId req);
                  GenerateContentCall r])
  /\ (exists t r n,
         calls (trace (Api.route E req))
         = firstn n [VerifyIdTokenCall t;
                     IncidentsGet (mentorId req) (tutorId req);
                     GenerateContentCall r]).
Proof.
  rewrite Src_route_generic, Api_route_generic.
  split; eapply runs_calls; apply routeWith_runs.
Qed.

Lemma runs_ok_authorised (emptyResult : JSON)
      (genAIRequest : list JSString -> GenerateContentParameters)
      (E : Env) (req : AuthRequest) (m : M Response) (r : Response) :
  runs emptyResult genAIRequest E req m ->
  outcome m = Returned r -> status r = 200 ->
  authorised E req /\ exists snapshot, fetched E req = Returned snapshot.
Proof.
  intros H Ho Hs.
  destruct H; cbn [outcome snd] in Ho; injection Ho as <-; cbn in Hs;
    try discriminate Hs; eauto.
Qed.

(** X3. A 200 is sent only to the verified owner: when a route answers
    200, the token was verified, its uid is the owner named in the path,
    and the store read for that path returned. *)
Theorem ok_only_for_verified_owner (E : Env) (req : AuthRequest) (r : Response) :
  status r = 200 ->
  outcome (Src.route E req) = Returned r \/ outcome (Api.route E req) = Returned r ->
  authorised E req /\ exists snapshot, fetched E req = Returned snapshot.
Proof.
  intros Hs [Ho | Ho].
  - rewrite Src_route_generic in Ho.
    exact (runs_ok_authorised _ _ E req _ r (routeWith_runs _ _ E req) Ho Hs).
  - rewrite Api_route_generic in Ho.
    exact (runs_ok_authorised _ _ E req _ r (routeWith_runs _ _ E req) Ho Hs).
Qed.

Lemma ok_only_for_verified_owner_witness :
  authorised (Sample.answering Sample.okText) Sample.owner
  /\ exists snapshot, fetched (Sample.answering Sample.okText) Sample.owner = Returned snapshot.
Proof.
  exact (ok_only_for_verified_owner
           (Sample.answering Sample.okText) Sample.owner
           (json 200 (JObject [(js "summary", JString (js "ok")); (js "scores", JObject [])]))
           eq_refl (or_introl eq_refl)).
Defined.

Lemma runs_store_call (emptyResult : JSON)
      (genAIRequest : list JSString -> GenerateContentParameters)
      (E : Env) (req : AuthRequest) (m : M Response) :
  runs emptyResult genAIRequest E req m ->
  (existsb isStoreCall (trace m) = true -> authorised E req)
  /\ (existsb isProviderCall (trace m) = true ->
      authorised E req
      /\ exists snapshot, fetched E req = Returned snapshot /\ docs snapshot <> []).
Proof.
  intros H. destruct H; cbn; split; intros Hc; try discriminate Hc; eauto.
Qed.

(** X4. The store is read only for a request whose verified uid is the
    owner in the path, and the provider is called only after that store
    read returned at least one incident. *)
Theorem collaborators_called_only_when_allowed (E : Env) (req : AuthRequest) :
  (existsb isStoreCall (trace (Src.route E req)) = true
   \/ existsb isStoreCall (trace (Api.route E req)) = true ->
   authorised E req)
  /\ (existsb isProviderCall (trace (Src.route E req)) = true
      \/ existsb isProviderCall (trace (Api.route E req)) = true ->
      authorised E req
      /\ exists snapshot, fetched E req = Returned snapshot /\ docs snapshot <> []).
Proof.
  pose proof (runs_store_call _ _ E req _ (routeWith_runs Src.emptyResult Src.genAIRequest E req))
    as [Hs1 Hp1].
  pose proof (runs_store_call _ _ E req _ (routeWith_runs Api.emptyResult Api.genAIRequest E req))
    as [Hs2 Hp2].
  rewrite <- Src_route_generic in Hs1, Hp1. rewrite <- Api_route_generic in Hs2, Hp2.
  split; intros [H | H]; auto.
Qed.

Lemma collaborators_called_only_when_allowed_witness :
  authorised Sample.providerDown Sample.owner
  /\ exists snapshot,
       fetched Sample.providerDown Sample.owner = Returned snapshot /\ docs snapshot <> [].
Proof.
  exact (proj2 (collaborators_called_only_when_allowed Sample.providerDown Sample.owner)
               (or_introl eq_refl)).
Defined.

Lemma runs_error_log (emptyResult : JSON)
      (genAIRequest : list JSString -> GenerateContentParameters)
      (E : Env) (req : AuthRequest) (m : M Response) :
  runs emptyResult genAIRequest E req m ->
  (outcome m = Returned invalidToken \/ outcome m = Returned genericFailure ->
   length (filter isErrorLog (trace m)) = 1%nat)
  /\ (outcome m <> Returned invalidToken -> outcome m <> Returned genericFailure ->
      filter isErrorLog (trace m) = []).
Proof.
  intros H. destruct H; cbn [outcome snd trace fst]; split;
    try (intros _; reflexivity);
    try (intros _ _; reflexivity);
    try (intros [Hc | Hc]; vm_compute in Hc; discriminate Hc);
    try (intros Hx Hy; exfalso; (apply Hx; reflexivity) || (apply Hy; reflexivity)).
Qed.

(** X5. A run leaves exactly one error line on the console when it ends in
    the invalid-token 403 or in the generic 500, and none otherwise: every
    failure is logged once, and a 200, a 401 or the wrong-owner 403 logs no
    error. *)
Theorem errors_logged_exactly_once (E : Env) (req : AuthRequest) :
  ((outcome (Src.route E req) = Returned invalidToken
    \/ outcome (Src.route E req) = Returned genericFailure ->
    length (filter isErrorLog (trace (Src.route E req))) = 1%nat)
   /\ (outcome (Src.route E req) <> Returned invalidToken ->
       outcome (Src.route E req) <> Returned genericFailure ->
       filter isErrorLog (trace (Src.route E req)) = []))
  /\ ((outcome (Api.route E req) = Returned invalidToken
       \/ outcome (Api.route E req) = Returned genericFailure ->
       length (filter isErrorLog (trace (Api.route E req))) = 1%nat)
      /\ (outcome (Api.route E req) <> Returned invalidToken ->
          outcome (Api.route E req) <> Returned genericFailure ->
          filter isErrorLog (trace (Api.route E req)) = [])).
Proof.
  rewrite Src_route_generic, Api_route_generic.
  split;
    [ apply (runs_error_log Src.emptyResult Src.genAIRequest E req)
    | apply (runs_error_log Api.emptyResult Api.genAIRequest E req) ];
    apply routeWith_runs.
Qed.

Lemma errors_logged_exactly_once_witness :
  length (filter isErrorLog (trace (Src.route Sample.storeDown Sample.owner))) = 1%nat
  /\ filter isErrorLog (trace (Api.route Sample.emptyStore Sample.owner)) = [].
Proof.
  split.
  - exact (proj1 (proj1 (errors_logged_exactly_once Sample.storeDown Sample.owner))
                 (or_intror eq_refl)).
  - refine (proj2 (proj2 (errors_logged_exactly_once Sample.emptyStore Sample.owner)) _ _);
      vm_compute; discriminate.
Defined.

(** ** The token handed to the verifier *)

Lemma indexOfFrom_range (s p : JSString) (k : Z) :
  indexOfFrom s p k = -1 \/ k <= indexOfFrom s p k.
Proof.
  revert k. induction s as [|c s IH]; intros k; cbn [indexOfFrom].
  - destruct (startsWith [] p); [right; lia | now left].
  - destruct (startsWith (c :: s) p); [right; lia|].
    destruct (IH (k + 1)) as [H | H]; [now left | right; lia].
Qed.

Lemma startsWith_app_self (p rest : JSString) : startsWith (p ++ rest) p = true.
Proof.
  induction p as [|c p IH]; [reflexivity|].
  cbn [app startsWith]. now rewrite N.eqb_refl, IH.
Qed.

(** The first piece [split] cuts off a text read from index [k] on. *)
Lemma splitFrom_head (separator : JSString) :
  separator <> [] ->
  forall (s cur : JSString) (k : Z), 0 <= k ->
    hd [] (splitFrom s separator cur O)
    = rev cur ++ (if indexOfFrom s separator k =? -1 then s
                  else firstn (Z.to_nat (indexOfFrom s separator k - k)) s).
Proof.
  intros Hsep. induction s as [|c s IH]; intros cur k Hk.
  - cbn [splitFrom hd indexOfFrom].
    destruct separator as [|d sep']; [contradiction|]. cbn [startsWith].
    now rewrite app_nil_r.
  - cbn [splitFrom indexOfFrom].
    destruct (startsWith (c :: s) separator) eqn:Hs.
    + cbn [hd]. destruct (k =? -1) eqn:Ek; [lia|].
      rewrite Z.sub_diag. cbn [Z.to_nat firstn]. now rewrite app_nil_r.
    + rewrite (IH (c :: cur) (k + 1)) by lia. cbn [rev]. rewrite <- app_assoc.
      cbn [app]. f_equal.
      destruct (indexOfFrom_range s separator (k + 1)) as [H | H].
      * rewrite H. reflexivity.
      * destruct (indexOfFrom s separator (k + 1) =? -1) eqn:Ei; [lia|].
        replace (Z.to_nat (indexOfFrom s separator (k + 1) - k))
          with (S (Z.to_nat (indexOfFrom s separator (k + 1) - (k + 1)))) by lia.
        reflexivity.
Qed.

Lemma split_bearer_prefix (rest : JSString) :
  split (js "Bearer " ++ rest) (js "Bearer ")
  = [] :: splitFrom rest (js "Bearer ") [] O.
Proof. reflexivity. Qed.

Lemma idTokenOf_bearer (rest : JSString) :
  idTokenOf (Some (js "Bearer " ++ rest)) = Some (tokenAfterPrefix rest).
Proof.
  unfold idTokenOf, tokenAfterPrefix, indexOf. cbn [valueOf].
  rewrite split_bearer_prefix. cbn [nth_error].
  pose proof (splitFrom_head (js "Bearer ") ltac:(discriminate) rest [] 0 ltac:(lia)) as Hh.
  cbn [rev app] in Hh. rewrite Z.sub_0_r in Hh.
  destruct (splitFrom rest (js "Bearer ") [] 0) as [|x l] eqn:Es.
  - now apply splitFrom_nonempty in Es.
  - cbn [hd] in Hh. cbn [nth_error]. now rewrite Hh.
Qed.

Lemma runs_first_call (emptyResult : JSON)
      (genAIRequest : list JSString -> GenerateContentParameters)
      (E : Env) (req : AuthRequest) (m : M Response) (t : JSString) :
  runs emptyResult genAIRequest E req m ->
  hasBearer (authorization req) = true ->
  idTokenOf (authorization req) = Some t ->
  exists tr, trace m = VerifyIdTokenCall t :: tr.
Proof.
  intros H Hb Ht. destruct H; cbn [trace fst]; try congruence;
    match goal with
    | Hi : idTokenOf _ = Some ?t' |- _ =>
        rewrite Hi in Ht; injection Ht as <-; eauto
    end.
Qed.

(** X6. For a header made of the bearer prefix and a text [rest], the
    verifier is the first thing called, and the token it receives is [rest]
    up to the next occurrence of the prefix inside it: a header that holds
    the prefix twice has only the part between the two verified. *)
Theorem verifier_receives_text_after_prefix
        (E : Env) (req : AuthRequest) (rest : JSString) :
  authorization req = Some (js "Bearer " ++ rest) ->
  (exists tr, trace (Src.route E req) = VerifyIdTokenCall (tokenAfterPrefix rest) :: tr)
  /\ (exists tr, trace (Api.route E req) = VerifyIdTokenCall (tokenAfterPrefix rest) :: tr)
  /\ (containsText rest (js "Bearer ") = false -> tokenAfterPrefix rest = rest).
Proof.
  intros Hh.
  assert (Hb : hasBearer (authorization req) = true).
  { rewrite Hh. unfold hasBearer. cbn [valueOf falsy].
    now rewrite startsWith_app_self. }
  assert (Ht : idTokenOf (authorization req) = Some (tokenAfterPrefix rest)).
  { rewrite Hh. apply idTokenOf_bearer. }
  rewrite Src_route_generic, Api_route_generic.
  split; [eapply runs_first_call; eauto using routeWith_runs|].
  split; [eapply runs_first_call; eauto using routeWith_runs|].
  unfold containsText, tokenAfterPrefix. rewrite negb_false_iff. now intros ->.
Qed.

Lemma verifier_receives_text_after_prefix_witness :
  tokenAfterPrefix (js "abcBearer xyz") = js "abc"
  /\ exists tr,
       trace (Src.route Sample.emptyStore
                        (Sample.request (Some (js "Bearer " ++ js "abcBearer xyz")) (js "m1")))
       = VerifyIdTokenCall (tokenAfterPrefix (js "abcBearer xyz")) :: tr.
Proof.
  split; [reflexivity|].
  exact (proj1 (verifier_receives_text_after_prefix
                  Sample.emptyStore
                  (Sample.request (Some (js "Bearer " ++ js "abcBearer xyz")) (js "m1"))
                  (js "abcBearer xyz") eq_refl)).
Defined.

(** ** What the provider is sent *)

Lemma indexOfFrom_found (a x b : JSString) (k : Z) :
  k <= indexOfFrom (a ++ x ++ b) x k.
Proof.
  revert k. induction a as [|c a IH]; intros k.
  - cbn [app]. destruct (x ++ b) as [|d s] eqn:Hs.
    + cbn [indexOfFrom]. destruct x; [cbn; lia | discriminate].
    + cbn [indexOfFrom]. rewrite <- Hs, startsWith_app_self. lia.
  - cbn [app indexOfFrom]. destruct (startsWith (c :: a ++ x ++ b) x); [lia|].
    specialize (IH (k + 1)). lia.
Qed.

Lemma containsText_piece (a x b : JSString) : containsText (a ++ x ++ b) x = true.
Proof.
  unfold containsText, indexOf. pose proof (indexOfFrom_found a x b 0) as H.
  apply negb_true_iff. lia.
Qed.

Lemma join_holds (parts : list JSString) (sep x : JSString) :
  In x parts -> exists a b, join parts sep = a ++ x ++ b.
Proof.
  induction parts as [|p l IH]; [contradiction|].
  destruct l as [|q l].
  - intros [-> | []]. exists [], []. cbn [join app]. now rewrite app_nil_r.
  - intros [-> | Hin].
    + exists [], (sep ++ join (q :: l) sep). reflexivity.
    + destruct (IH Hin) as (a & b & Hab). exists (p ++ sep ++ a), b.
      rewrite join_cons, Hab. now rewrite <- !app_assoc.
Qed.

Lemma prompt_holds_line (head : JSString) (texts : list JSString) (x : JSString) :
  In x texts -> containsText (head ++ join texts [10%N] ++ [10%N]) x = true.
Proof.
  intros Hin. destruct (join_holds texts [10%N] x Hin) as (a & b & ->).
  replace (head ++ (a ++ x ++ b) ++ [10%N]) with ((head ++ a) ++ x ++ (b ++ [10%N]))
    by now rewrite <- !app_assoc.
  apply containsText_piece.
Qed.

Lemma prompt_holds_description (E : Env) (head : JSString) (ds : list DocumentData)
      (d : DocumentData) :
  In d ds ->
  containsText (head ++ join (map (incidentText E) ds) [10%N] ++ [10%N]) (description d) = true.
Proof.
  intros Hin.
  destruct (join_holds (map (incidentText E) ds) [10%N] (incidentText E d) (in_map _ _ _ Hin))
    as (a & b & ->).
  unfold incidentText.
  set (stamp := match date d with Some t => toISOString E t | None => js "unknown date" end).
  replace (head ++ (a ++ (stamp ++ js ": " ++ description d) ++ b) ++ [10%N])
    with ((head ++ a ++ stamp ++ js ": ") ++ description d ++ (b ++ [10%N]))
    by now rewrite <- !app_assoc.
  apply containsText_piece.
Qed.

Lemma provider_called_with (emptyResult : JSON)
      (genAIRequest : list JSString -> GenerateContentParameters)
      (E : Env) (req : AuthRequest) (snapshot : QuerySnapshot) :
  authorised E req -> fetched E req = Returned snapshot -> docs snapshot <> [] ->
  In (GenerateContentCall (genAIRequest (map (incidentText E) (docs snapshot))))
     (trace (routeWith emptyResult genAIRequest E req)).
Proof.
  intros (u & Hv & Hu) Hf Hd.
  destruct (route_accepted emptyResult genAIRequest E req u Hv) as [t ->].
  cbn [trace fst]. rewrite (handler_provider emptyResult genAIRequest E req u snapshot Hu Hf Hd).
  cbv zeta.
  destruct (generateContent E (genAIRequest (map (incidentText E) (docs snapshot))));
    [destruct (falsy (text a)); [|destruct (extract E (valueOf (text a)))]|];
    cbn; tauto.
Qed.

(** X7. No stored incident is left out of what the provider is asked: for
    an authorised request, the run records a call of the provider whose
    request holds one content, of role user, with one part, and the text of
    that part is the prompt built from all the documents the store
    returned, in their order; that text holds the rendered line and the
    description of each of them. *)
Theorem every_incident_reaches_provider
        (E : Env) (req : AuthRequest) (snapshot : QuerySnapshot) (d : DocumentData) :
  authorised E req ->
  fetched E req = Returned snapshot ->
  In d (docs snapshot) ->
  (exists r p,
      In (GenerateContentCall r) (trace (Src.route E req))
      /\ contents r = [ {| role := js "user"; parts := [ {| partText := p |} ] |} ]
      /\ p = Src.promptHead ++ join (map (incidentText E) (docs snapshot)) [10%N] ++ [10%N]
      /\ containsText p (incidentText E d) = true
      /\ containsText p (description d) = true)
  /\
  (exists r p,
      In (GenerateContentCall r) (trace (Api.route E req))
      /\ contents r = [ {| role := js "user"; parts := [ {| partText := p |} ] |} ]
      /\ p = Api.promptHead ++ join (map (incidentText E) (docs snapshot)) [10%N] ++ [10%N]
      /\ containsText p (incidentText E d) = true
      /\ containsText p (description d) = true).
Proof.
  intros Ha Hf Hin.
  assert (Hne : docs snapshot <> []) by (intros Hnil; rewrite Hnil in Hin; contradiction).
  rewrite Src_route_generic, Api_route_generic.
  split.
  - exists (Src.genAIRequest (map (incidentText E) (docs snapshot))),
           (Src.prompt (map (incidentText E) (docs snapshot))).
    split; [now apply provider_called_with|]. split; [reflexivity|].
    split; [reflexivity|]. unfold Src.prompt.
    split; [apply prompt_holds_line; now apply in_map | now apply prompt_holds_description].
  - exists (Api.genAIRequest (map (incidentText E) (docs snapshot))),
           (Api.prompt (map (incidentText E) (docs snapshot))).
    split; [now apply provider_called_with|]. split; [reflexivity|].
    split; [reflexivity|]. unfold Api.prompt.
    split; [apply prompt_holds_line; now apply in_map | now apply prompt_holds_description].
Qed.

Lemma every_incident_reaches_provider_witness :
  exists r p,
    In (GenerateContentCall r) (trace (Src.route (Sample.answering Sample.okText) Sample.owner))
    /\ contents r = [ {| role := js "user"; parts := [ {| partText := p |} ] |} ]
    /\ p = Src.promptHead
           ++ join (map (incidentText (Sample.answering Sample.okText))
                        [Sample.incident1; Sample.incident2]) [10%N]
           ++ [10%N]
    /\ containsText p (incidentText (Sample.answering Sample.okText) Sample.incident2) = true
    /\ containsText p (js "Proposed a new exercise format") = true.
Proof.
  assert (Ha : authorised (Sample.answering Sample.okText) Sample.owner).
  { exists {| uid := js "m1" |}. split; reflexivity. }
  exact (proj1 (every_incident_reaches_provider
                  (Sample.answering Sample.okText) Sample.owner
                  {| docs := [Sample.incident1; Sample.incident2] |}
                  Sample.incident2 Ha eq_refl (or_intror (or_introl eq_refl)))).
Defined.

(** ** The outcomes of the extraction *)

Lemma firstn_skipn_piece (s : JSString) (n m : nat) :
  exists x y, s = x ++ firstn m (skipn n s) ++ y.
Proof.
  exists (firstn n s), (skipn m (skipn n s)).
  now rewrite (firstn_skipn m), (firstn_skipn n).
Qed.

Lemma substring_piece (s : JSString) (a b : Z) :
  exists x y, s = x ++ substring s a b ++ y.
Proof. unfold substring. apply firstn_skipn_piece. Qed.

(** X8. The extraction fails in two ways only. It throws NoJsonFound
    exactly when the text lacks an opening or a closing brace; any other
    exception is the parser's error on a piece of the text, rethrown as
    MalformedJson; and a value it returns is what the parser read from a
    contiguous piece of the text. *)
Theorem extract_outcomes (E : Env) (t : JSString) :
  (extract E t = Thrown NoJsonFound <->
   includes t LBRACE = false \/ includes t RBRACE = false)
  /\ (forall e, extract E t = Thrown e ->
        e = NoJsonFound
        \/ exists x sub y message,
             t = x ++ sub ++ y /\ JSON_parse E sub = SyntaxErrorAt message
             /\ e = MalformedJson message)
  /\ (forall J, extract E t = Returned J ->
        exists x sub y, t = x ++ sub ++ y /\ JSON_parse E sub = Parsed J).
Proof.
  destruct (includes t LBRACE) eqn:Hl; [destruct (includes t RBRACE) eqn:Hr|].
  - rewrite (extract_present E t Hl Hr).
    destruct (substring_piece t (indexOf t [LBRACE]) (lastIndexOf t [RBRACE] + 1))
      as (x & y & Hxy).
    destruct (JSON_parse E (substring t (indexOf t [LBRACE]) (lastIndexOf t [RBRACE] + 1)))
      as [v | message] eqn:Hp; cbn [parseOutcome].
    + split; [split; [discriminate | intros [H | H]; discriminate]|].
      split; [discriminate|]. intros J HJ. injection HJ as <-. eauto.
    + split; [split; [discriminate | intros [H | H]; discriminate]|].
      split; [|discriminate]. intros e He. injection He as <-. right.
      exists x, (substring t (indexOf t [LBRACE]) (lastIndexOf t [RBRACE] + 1)), y, message.
      auto.
  - rewrite (extract_absent E t (or_intror Hr)).
    split; [split; auto|]. split; [|discriminate].
    intros e He. injection He as <-. now left.
  - rewrite (extract_absent E t (or_introl Hl)).
    split; [split; auto|]. split; [|discriminate].
    intros e He. injection He as <-. now left.
Qed.

(** ** The body of a summary is an object *)

Lemma parseMembers_object (n : nat) :
  forall s acc v r,
    JSONText.parseMembers n s acc = Some (v, r) -> exists props, v = JObject props.
Proof.
  induction n as [|n IH]; intros s acc v r; [discriminate|].
  cbn [JSONText.parseMembers].
  destruct s as [|q s]; [discriminate|].
  destruct (q =? 34)%N; [|discriminate].
  destruct (JSONText.parseChars s) as [[k rest]|]; [|discriminate].
  destruct (JSONText.skipWs rest) as [|colon r1]; [discriminate|].
  destruct (colon =? 58)%N; [|discriminate].
  destruct (JSONText.parseValue n (JSONText.skipWs r1)) as [[v' rest']|]; [|discriminate].
  destruct (JSONText.skipWs rest') as [|d r']; [discriminate|].
  destruct (d =? 44)%N; [apply IH|].
  destruct (d =? 125)%N; [|discriminate].
  intros H. injection H as <- _. eauto.
Qed.

Lemma parse_brace_object (inner : JSString) (v : JSON) :
  JSONText.parse (LBRACE :: inner) = Parsed v -> exists props, v = JObject props.
Proof.
  unfold JSONText.parse. cbn [JSONText.skipWs].
  change (JSONText.isWhitespace LBRACE) with false. cbv iota.
  cbn [JSONText.parseValue]. change ((LBRACE =? 123)%N) with true. cbv iota.
  destruct (JSONText.skipWs inner) as [|d r']; [discriminate|].
  destruct (d =? 125)%N.
  - destruct (JSONText.skipWs r'); [|discriminate].
    intros H. injection H as <-. eauto.
  - destruct (JSONText.parseMembers (length (LBRACE :: inner)) (d :: r') [])
      as [[w rest]|] eqn:Hm;
      cbv beta iota; [|discriminate].
    destruct (parseMembers_object _ _ _ _ _ Hm) as [props ->].
    destruct (JSONText.skipWs rest); [|discriminate].
    intros H. injection H as <-. eauto.
Qed.

Lemma braceSpan_starts (t sub : JSString) :
  braceSpan t = Some sub -> exists inner, sub = LBRACE :: inner.
Proof.
  unfold braceSpan. intros H.
  destruct (indexOf t [LBRACE] =? -1) eqn:Ei; [discriminate|].
  destruct (lastIndexOf t [RBRACE] =? -1) eqn:Ej; [discriminate|].
  destruct (lastIndexOf t [RBRACE] <? indexOf t [LBRACE]) eqn:Eo; [discriminate|].
  cbn [orb] in H. injection H as <-.
  assert (Hl : includes t LBRACE = true).
  { destruct (includes t LBRACE) eqn:X; [reflexivity|].
    apply indexOf_absent_iff in X. lia. }
  destruct (split_at_first LBRACE t Hl) as (pre & rest & Ht & Hpre).
  rewrite Ht in *. rewrite (indexOf_first LBRACE pre rest Hpre) in *.
  rewrite Nat2Z.id, skipn_app, skipn_all, Nat.sub_diag. cbn [app skipn].
  destruct (Z.to_nat (lastIndexOf (pre ++ LBRACE :: rest) [RBRACE] + 1 - Z.of_nat (length pre)))
    as [|n] eqn:En; [lia|].
  cbn [firstn]. eauto.
Qed.

(** X9. With the JSON grammar for a parser, a summary that is extracted
    from a text whose first opening brace precedes its last closing brace
    is always a JSON object, never an array, a string, a number, a boolean
    or null; so is the body of the 200 response that carries it. *)
Theorem extracted_summary_is_object
        (E : Env) (req : AuthRequest) (t sub : JSString) :
  JSON_parse E = JSONText.parse ->
  braceSpan t = Some sub ->
  (forall J, extract E t = Returned J -> exists props, J = JObject props)
  /\ (forall r, answers Src.genAIRequest E req (Returned {| text := Some t |}) ->
                outcome (Src.route E req) = Returned r -> status r = 200 ->
                exists props, body r = JObject props)
  /\ (forall r, answers Api.genAIRequest E req (Returned {| text := Some t |}) ->
                outcome (Api.route E req) = Returned r -> status r = 200 ->
                exists props, body r = JObject props).
Proof.
  intros HE Hs.
  assert (Hobj : forall J, extract E t = Returned J -> exists props, J = JObject props).
  { intros J. rewrite (extract_span E t sub Hs), HE.
    destruct (braceSpan_starts t sub Hs) as [inner ->].
    destruct (JSONText.parse (LBRACE :: inner)) as [v | m] eqn:Hp; [|discriminate].
    intros H. injection H as <-. exact (parse_brace_object inner v Hp). }
  split; [exact Hobj|].
  rewrite Src_route_generic, Api_route_generic.
  split; intros r Ha Ho Hst;
    rewrite (route_answers _ _ E req _ Ha) in Ho; cbn [text valueOf] in Ho;
    rewrite (braceSpan_nonempty t sub Hs) in Ho;
    (destruct (extract E t) as [J | e] eqn:He;
     [ injection Ho as <-; destruct (Hobj J eq_refl) as [props ->];
       cbn [json body wire]; eauto
     | injection Ho as <-; discriminate Hst ]).
Qed.

Lemma extracted_summary_is_object_witness :
  exists props,
    JObject [(js "summary", JString (js "ok")); (js "scores", JObject [])] = JObject props.
Proof.
  exact (proj1 (extracted_summary_is_object
                  (Sample.answering Sample.okText) Sample.owner
                  (js "Result: " ++ Sample.okText) Sample.okText eq_refl eq_refl)
               (JObject [(js "summary", JString (js "ok")); (js "scores", JObject [])])
               eq_refl).
Defined.

(** ** The middleware and the handler together *)

(** X11. The middleware hands a request on to the handler exactly when the
    verifier accepted its token, and then the request is the one received
    with the decoded token attached: header and path parameters are left
    as they were, and no request reaches the handler unverified. *)
Theorem next_only_after_verification (E : Env) (req req' : AuthRequest) :
  (exists tr, verifyToken E req = (tr, Returned (inr req')))
  <-> exists u, verification E req = Some (Returned u) /\ req' = withUser req u.
Proof.
  split.
  - intros [tr H]. exact (verifyToken_inr E req req' tr H).
  - intros (u & Hv & ->). destruct (verifyToken_accepted E req u Hv) as [t Ht].
    now exists [VerifyIdTokenCall t].
Qed.
